(** * sqlite-demo: the notebook's SQLite helpers, embedded and checked

    The notebook [sqlite-demo.ipynb] drives Python's [sqlite3] driver: it
    builds SQL text with [str.format], hands it to [cursor.execute], reads
    the result with [fetchall]/[fetchone], and ends each cell with
    [conn.commit()] / [conn.close()].  This file embeds

    - Python strings as sequences of code points ([pystr]);
    - [clean_name] (the sanitiser of the "Security and injection attacks"
      cell) and the statements the cells build;
    - the part of the driver and of the engine those statements reach
      (a lexer and a recogniser for the statement shapes of the notebook,
      tables with primary keys, connections with pending changes);
    - [connect], [close], [total_rows], [table_col_info], [values_in_col]
      and the [__main__] block of the last cell.  *)

From Stdlib Require Import ZArith NArith List String Ascii Bool Lia DecimalString.
From stdpp Require Import base option list gmap.
Import ListNotations.

Local Open Scope N_scope.

(** ** Python strings *)

(** A Python [str] is a sequence of Unicode code points. *)
Definition pychar := N.
Definition pystr := list N.

(** String literals of the source, written as Rocq strings. *)
Definition lit (s : string) : pystr :=
  List.map N_of_ascii (list_ascii_of_string s).

Definition pystr_eqb (a b : pystr) : bool := bool_decide (a = b).

Definition is_digit (ch : pychar) : bool := (48 <=? ch) && (ch <=? 57).
Definition is_upper (ch : pychar) : bool := (65 <=? ch) && (ch <=? 90).
Definition is_lower (ch : pychar) : bool := (97 <=? ch) && (ch <=? 122).
Definition is_letter (ch : pychar) : bool := is_upper ch || is_lower ch.

(** ASCII case folding, as SQLite compares keywords and names. *)
Definition to_upper (ch : pychar) : pychar :=
  if is_lower ch then ch - 32 else ch.
Definition upper (s : pystr) : pystr := List.map to_upper s.

(** [str(n)] for an integer. *)
Definition str_of_Z (z : Z) : pystr :=
  lit (NilZero.string_of_int (Z.to_int z)).

Section Unicode.

(** [str.isalnum] on one character: letters and digits.  Below 128 these
    are [0-9A-Za-z]; above, the Unicode character database decides, and it
    is taken as given. *)
Variable unicode_isalnum : pychar -> bool.

Definition isalnum (ch : pychar) : bool :=
  if ch <? 128 then is_digit ch || is_letter ch else unicode_isalnum ch.

(** [def clean_name(some_var):
       return ''.join(char for char in some_var if char.isalnum())] *)
Definition clean_name (some_var : pystr) : pystr :=
  List.filter isalnum some_var.

End Unicode.

(** The identifier grammar of the specification,
    [^[A-Za-z_][A-Za-z0-9_]*$]. *)
Definition ident_start (ch : pychar) : bool := is_letter ch || (ch =? 95).
Definition ident_char (ch : pychar) : bool :=
  is_letter ch || is_digit ch || (ch =? 95).

Definition matches_grammar (s : pystr) : bool :=
  match s with
  | [] => false
  | ch :: rest => ident_start ch && forallb ident_char rest
  end.

Definition length_bound : nat := 128.

(** The validator as the specification words it: the name itself when it
    matches the grammar and is within the length bound, a failure
    ([None], for [InvalidIdentifier]) otherwise. *)
Definition validate_spec (name : pystr) : option pystr :=
  if matches_grammar name && (length name <=? length_bound)%nat
  then Some name else None.

(** ** Values, tables, databases *)

(** The values the driver hands back: [None], [int], [str].  (Floating
    point and blobs are left out of the model.) *)
Inductive value :=
| VNull
| VInt (n : Z)
| VText (s : pystr).

Global Instance value_eq_dec : EqDecision value.
Proof. solve_decision. Defined.

Abbreviation row := (list value).

(** [str(v)], as [str.format] renders a value into a [{}] field. *)
Definition str (v : value) : pystr :=
  match v with
  | VNull => lit "None"
  | VInt n => str_of_Z n
  | VText s => s
  end.

(** A column as [PRAGMA TABLE_INFO] describes it.  [col_default] is the
    [DEFAULT] clause: its text as the pragma reports it, and the value it
    yields.  [col_pk] is 0 for a column outside the primary key and the
    column's rank in the key otherwise. *)
Record column := Column {
  col_name : pystr;
  col_type : pystr;
  col_notnull : bool;
  col_default : option (pystr * value);
  col_pk : N
}.

(** A table (or a view, or a virtual table: whatever the schema names
    and a statement can read like a table).  [tbl_cols] and [tbl_rows] are
    what [PRAGMA TABLE_INFO] and [SELECT] show.  [tbl_ordinary] says that
    there is nothing more to it: an ordinary table declared with column
    names, types, [NOT NULL], [DEFAULT] and a [PRIMARY KEY] with the default
    conflict handling alone, on which no index and no trigger is defined.
    Where it is [false] (a view, a virtual table, a conflict clause, a
    [UNIQUE] or [CHECK] constraint, a foreign key, a generated column, an
    index, a trigger, a [STRICT] or [WITHOUT ROWID] table) the model does
    not follow statements that write. *)
Record table := Table {
  tbl_name : pystr;
  tbl_cols : list column;
  tbl_rows : list row;
  tbl_ordinary : bool
}.

Definition database := list table.

(** Names are compared without regard to ASCII case. *)
Definition same_name (a b : pystr) : bool := pystr_eqb (upper a) (upper b).

Definition find_table (d : database) (tn : pystr) : option table :=
  List.find (fun t => same_name (tbl_name t) tn) d.

Fixpoint find_col (cols : list column) (cn : pystr) : option nat :=
  match cols with
  | [] => None
  | c :: rest =>
      if same_name (col_name c) cn then Some O
      else S <$> find_col rest cn
  end.

Definition replace_table (d : database) (t' : table) : database :=
  List.map (fun t => if same_name (tbl_name t) (tbl_name t') then t' else t) d.

(** One row of [PRAGMA TABLE_INFO]:
    [(id, name, type, notnull, default_value, primary_key)]. *)
Definition descriptor (cid : nat) (c : column) : row :=
  [ VInt (Z.of_nat cid);
    VText (col_name c);
    VText (col_type c);
    VInt (if col_notnull c then 1 else 0);
    match col_default c with Some (txt, _) => VText txt | None => VNull end;
    VInt (Z.of_N (col_pk c)) ].

Definition table_info (t : table) : list row := imap descriptor (tbl_cols t).

(** ** The engine's reading of SQL text *)

Module Sql.

Inductive sym := LPAREN | RPAREN | STAR | COMMA | MINUS | GE | EQUALS | QMARK.

Inductive raw :=
| RWord (w : pystr)
| RSym (y : sym)
| RStr (s : pystr).

Inductive lex_mode :=
| InCode (cur : pystr)   (* the word being read, reversed *)
| InStr (acc : pystr)    (* inside a quoted literal *)
| AfterGt.               (* a [>] was read *)

Definition flush (cur : pystr) (out : list raw) : list raw :=
  match cur with
  | [] => out
  | _ => RWord (rev cur) :: out
  end.

Definition symbol_of (ch : pychar) : option sym :=
  if ch =? 40 then Some LPAREN
  else if ch =? 41 then Some RPAREN
  else if ch =? 42 then Some STAR
  else if ch =? 44 then Some COMMA
  else if ch =? 45 then Some MINUS
  else if ch =? 61 then Some EQUALS
  else if ch =? 63 then Some QMARK
  else None.

Definition lex_state : Type := lex_mode * list raw.

(** The characters a word is made of: [[A-Za-z0-9_]] and every character
    above ASCII. *)
Definition word_char (ch : pychar) : bool := ident_char ch || (128 <=? ch).

(** One character.  Words, blanks, single-quoted literals and the few
    symbols the notebook's statements use; any other character puts the
    text outside the modelled fragment ([None]). *)
Definition lex_step (st : lex_state) (ch : pychar) : option lex_state :=
  let '(m, out) := st in
  match m with
  | InStr acc =>
      if ch =? 39 then Some (InCode [], RStr (rev acc) :: out)
      else Some (InStr (ch :: acc), out)
  | AfterGt =>
      if ch =? 61 then Some (InCode [], RSym GE :: out) else None
  | InCode cur =>
      if word_char ch then Some (InCode (ch :: cur), out)
      else if ch =? 32 then Some (InCode [], flush cur out)
      else if ch =? 39 then Some (InStr [], flush cur out)
      else if ch =? 62 then Some (AfterGt, flush cur out)
      else match symbol_of ch with
           | Some y => Some (InCode [], RSym y :: flush cur out)
           | None => None
           end
  end.

Fixpoint lex_run (st : lex_state) (s : pystr) : option lex_state :=
  match s with
  | [] => Some st
  | ch :: s' =>
      match lex_step st ch with
      | Some st' => lex_run st' s'
      | None => None
      end
  end.

Definition lex_end (st : lex_state) : option (list raw) :=
  match st with
  | (InCode cur, out) => Some (rev (flush cur out))
  | _ => None
  end.

Definition lex (s : pystr) : option (list raw) :=
  lex_run (InCode [], []) s ≫= lex_end.

Inductive keyword :=
| K_SELECT | K_FROM | K_WHERE | K_IS | K_NOT | K_NULL | K_AND | K_OR
| K_PRAGMA | K_INSERT | K_INTO | K_VALUES | K_IGNORE
| K_reserved.   (* every other keyword of the engine *)

Global Instance keyword_eq_dec : EqDecision keyword.
Proof. solve_decision. Defined.

Definition grammar_keywords : list (string * keyword) :=
  [ ("SELECT", K_SELECT); ("FROM", K_FROM); ("WHERE", K_WHERE);
    ("IS", K_IS); ("NOT", K_NOT); ("NULL", K_NULL); ("AND", K_AND);
    ("OR", K_OR); ("PRAGMA", K_PRAGMA); ("INSERT", K_INSERT);
    ("INTO", K_INTO); ("VALUES", K_VALUES); ("IGNORE", K_IGNORE) ]%string.

Definition reserved_words : list string :=
  [ "ABORT"; "ACTION"; "ADD"; "AFTER"; "ALL"; "ALTER"; "ALWAYS"; "ANALYZE";
    "AS"; "ASC"; "ATTACH"; "AUTOINCREMENT"; "BEFORE"; "BEGIN"; "BETWEEN";
    "BY"; "CASCADE"; "CASE"; "CAST"; "CHECK"; "COLLATE"; "COLUMN";
    "COMMIT"; "CONFLICT"; "CONSTRAINT"; "CREATE"; "CROSS"; "CURRENT";
    "CURRENT_DATE"; "CURRENT_TIME"; "CURRENT_TIMESTAMP"; "DATABASE";
    "DEFAULT"; "DEFERRABLE"; "DEFERRED"; "DELETE"; "DESC"; "DETACH";
    "DISTINCT"; "DO"; "DROP"; "EACH"; "ELSE"; "END"; "ESCAPE"; "EXCEPT";
    "EXCLUDE"; "EXCLUSIVE"; "EXISTS"; "EXPLAIN"; "FAIL"; "FILTER"; "FIRST";
    "FOLLOWING"; "FOR"; "FOREIGN"; "FULL"; "GENERATED"; "GLOB"; "GROUP";
    "GROUPS"; "HAVING"; "IF"; "IMMEDIATE"; "IN"; "INDEX"; "INDEXED";
    "INITIALLY"; "INNER"; "INSTEAD"; "INTERSECT"; "ISNULL"; "JOIN"; "KEY";
    "LAST"; "LEFT"; "LIKE"; "LIMIT"; "MATCH"; "MATERIALIZED"; "NATURAL";
    "NO"; "NOTHING"; "NOTNULL"; "NULLS"; "OF"; "OFFSET"; "ON"; "ORDER";
    "OTHERS"; "OUTER"; "OVER"; "PARTITION"; "PLAN"; "PRECEDING"; "PRIMARY";
    "QUERY"; "RAISE"; "RANGE"; "RECURSIVE"; "REFERENCES"; "REGEXP";
    "REINDEX"; "RELEASE"; "RENAME"; "REPLACE"; "RESTRICT"; "RETURNING";
    "RIGHT"; "ROLLBACK"; "ROW"; "ROWS"; "SAVEPOINT"; "SET"; "TABLE";
    "TEMP"; "TEMPORARY"; "THEN"; "TIES"; "TO"; "TRANSACTION"; "TRIGGER";
    "UNBOUNDED"; "UNION"; "UNIQUE"; "UPDATE"; "USING"; "VACUUM"; "VIEW";
    "VIRTUAL"; "WHEN"; "WINDOW"; "WITH"; "WITHIN"; "WITHOUT";
    "TRUE"; "FALSE"; "ROWID"; "OID"; "_ROWID_" ]%string.

Definition keywords : list (pystr * keyword) :=
  Eval vm_compute in
    List.map (fun p => (lit (fst p), snd p)) grammar_keywords
    ++ List.map (fun w => (lit w, K_reserved)) reserved_words.

Definition keyword_of (w : pystr) : option keyword :=
  snd <$> List.find (fun p => pystr_eqb (fst p) (upper w)) keywords.

Inductive token :=
| TKw (k : keyword)
| TId (x : pystr)
| TNum (n : Z)
| TStr (s : pystr)
| TSym (y : sym).

Definition digits_value (w : pystr) : Z :=
  fold_left (fun acc ch => (acc * 10 + (Z.of_N ch - 48))%Z) w 0%Z.

Definition int64_max : Z := 9223372036854775807.

(** A word of digits is an integer literal (one that fits 64 bits; a
    longer one is a float and outside the model), a word that starts
    with a digit and goes on with letters is no token at all, a keyword
    is a keyword, and anything else is a name. *)
Definition classify (r : raw) : option token :=
  match r with
  | RSym y => Some (TSym y)
  | RStr s => Some (TStr s)
  | RWord w =>
      if forallb is_digit w then
        if (digits_value w <=? int64_max)%Z then Some (TNum (digits_value w))
        else None
      else match w with
           | [] => None
           | ch :: _ =>
               if is_digit ch then None
               else match keyword_of w with
                    | Some k => Some (TKw k)
                    | None => Some (TId w)
                    end
           end
  end.

Definition tokenize (sql : pystr) : option (list token) :=
  lex sql ≫= mapM classify.

End Sql.

Module Engine.
Import Sql.

(** Expressions and statements: the shapes the notebook's cells produce
    and the claims are about. *)
Inductive expr :=
| ECol (c : pystr)
| EInt (n : Z)
| ENull                     (* NULL *)
| EDateNow                  (* DATE('now') *)
| ESub (a b : expr)
| EGe (a b : expr)
| EAnd (a b : expr)
| ENotNull (a : expr).

Inductive query :=
| SelectCount (tn : pystr)                         (* SELECT COUNT( * ) FROM tn *)
| Select (proj : expr) (tn : pystr) (cond : expr). (* SELECT proj FROM tn WHERE cond *)

Inductive stmt :=
| Query (q : query)
| PragmaTableInfo (tn : pystr)                     (* PRAGMA TABLE_INFO(tn) *)
| Insert (or_ignore : bool) (tn : pystr) (cols : list pystr) (vals : list value).

Definition is_fn (name : string) (f : pystr) : bool :=
  pystr_eqb (upper f) (lit name).

(** [DATE('now') - col >= n] *)
Definition parse_age_term (ts : list token) : option (expr * list token) :=
  match ts with
  | TId f :: TSym LPAREN :: TStr m :: TSym RPAREN :: TSym MINUS
      :: TId c :: TSym GE :: TNum n :: rest =>
      if is_fn "DATE" f && pystr_eqb m (lit "now")
      then Some (EGe (ESub EDateNow (ECol c)) (EInt n), rest)
      else None
  | _ => None
  end.

Definition parse_age_cond (ts : list token) : option expr :=
  '(a, r1) ← parse_age_term ts;
  match r1 with
  | TKw K_AND :: r2 =>
      '(b, r3) ← parse_age_term r2;
      match r3 with [] => Some (EAnd a b) | _ => None end
  | _ => None
  end.

Definition parse_select (ts : list token) : option query :=
  match ts with
  | TId f :: TSym LPAREN :: TSym STAR :: TSym RPAREN :: TKw K_FROM
      :: TId tn :: [] =>
      if is_fn "COUNT" f then Some (SelectCount tn) else None
  | TSym LPAREN :: TId col :: TSym RPAREN :: TKw K_FROM :: TId tn
      :: TKw K_WHERE :: TId col' :: TKw K_IS :: TKw K_NOT :: TKw K_NULL
      :: [] =>
      Some (Select (ECol col) tn (ENotNull (ECol col')))
  | TSym LPAREN :: TKw K_NULL :: TSym RPAREN :: TKw K_FROM :: TId tn
      :: TKw K_WHERE :: TKw K_NULL :: TKw K_IS :: TKw K_NOT :: TKw K_NULL
      :: [] =>
      Some (Select ENull tn (ENotNull ENull))
  | TId idf :: TKw K_FROM :: TId tn :: TKw K_WHERE :: cond =>
      Select (ECol idf) tn <$> parse_age_cond cond
  | _ => None
  end.

Definition literal (t : token) : option value :=
  match t with
  | TNum n => Some (VInt n)
  | TStr s => Some (VText s)
  | _ => None
  end.

Definition parse_insert_body (or_ignore : bool) (ts : list token)
  : option stmt :=
  match ts with
  | TId tn :: TSym LPAREN :: TId c1 :: TSym COMMA :: TId c2 :: TSym RPAREN
      :: TKw K_VALUES :: TSym LPAREN :: v1 :: TSym COMMA :: v2
      :: TSym RPAREN :: [] =>
      a ← literal v1; b ← literal v2;
      Some (Insert or_ignore tn [c1; c2] [a; b])
  | _ => None
  end.

Definition parse_pragma (ts : list token) : option pystr :=
  match ts with
  | TId f :: TSym LPAREN :: TId tn :: TSym RPAREN :: [] =>
      if is_fn "TABLE_INFO" f then Some tn else None
  | _ => None
  end.

Definition parse_insert (ts : list token) : option stmt :=
  match ts with
  | TKw K_INTO :: rest => parse_insert_body false rest
  | TKw K_OR :: TKw K_IGNORE :: TKw K_INTO :: rest =>
      parse_insert_body true rest
  | _ => None
  end.

Definition parse_tokens (ts : list token) : option stmt :=
  match ts with
  | TKw K_SELECT :: rest => Query <$> parse_select rest
  | TKw K_PRAGMA :: rest => PragmaTableInfo <$> parse_pragma rest
  | TKw K_INSERT :: rest => parse_insert rest
  | _ => None
  end.

(** [None]: the text is outside the modelled fragment. *)
Definition parse_sql (sql : pystr) : option stmt :=
  tokenize sql ≫= parse_tokens.

(** Keywords that are never read as a name: where a name is due, the
    engine stops at them. *)
Definition never_names : list string :=
  [ "SELECT"; "FROM"; "WHERE"; "ORDER"; "GROUP"; "TABLE"; "INSERT";
    "UPDATE"; "DELETE"; "CREATE"; "DROP"; "VALUES"; "INTO"; "SET"; "AND";
    "OR"; "NOT"; "NULL"; "IS"; "IN" ]%string.

Definition never_a_name (w : pystr) : bool :=
  existsb (fun k => pystr_eqb (upper w) (lit k)) never_names.

(** The one syntax error the model knows: [SELECT COUNT( * ) FROM w] with
    such a keyword for [w] is refused with [near "w": syntax error]. *)
Definition syntax_error (sql : pystr) : option pystr :=
  match lex sql with
  | Some [RWord s; RWord f; RSym LPAREN; RSym STAR; RSym RPAREN; RWord fr;
          RWord w] =>
      if pystr_eqb (upper s) (lit "SELECT") && is_fn "COUNT" f
         && pystr_eqb (upper fr) (lit "FROM") && never_a_name w
      then Some w else None
  | _ => None
  end.

(** Names the engine resolves on its own, whatever the schema holds: its
    schema tables ([sqlite_master] and the like), the eponymous virtual
    tables of the pragmas ([pragma_database_list], [pragma_optimize], ...)
    and those of the table-valued functions a build may carry.  A statement
    on such a name is outside the model. *)
Definition engine_tables : list string :=
  [ "JSON_EACH"; "JSON_TREE"; "DBSTAT"; "BYTECODE"; "TABLES_USED";
    "FTS3TOKENIZE"; "GENERATE_SERIES"; "COMPLETION"; "FSDIR"; "ZIPFILE";
    "CARRAY" ]%string.

Definition internal_name (tn : pystr) : bool :=
  let u := upper tn in
  pystr_eqb (firstn 7 u) (lit "SQLITE_")
  || pystr_eqb (firstn 7 u) (lit "PRAGMA_")
  || existsb (fun n => pystr_eqb u (lit n)) engine_tables.

(** *** Evaluation *)

Definition is_space (ch : pychar) : bool :=
  (ch =? 32) || ((9 <=? ch) && (ch <=? 13)).

Fixpoint drop_spaces (s : pystr) : pystr :=
  match s with
  | ch :: rest => if is_space ch then drop_spaces rest else s
  | [] => []
  end.

Fixpoint leading_digits (s : pystr) (acc : Z) : Z * pystr :=
  match s with
  | ch :: rest =>
      if is_digit ch then leading_digits rest (acc * 10 + (Z.of_N ch - 48))%Z
      else (acc, s)
  | [] => (acc, [])
  end.

Definition exact_bound : Z := 9007199254740992.   (* 2^53 *)

Definition in_exact_range (z : Z) : bool :=
  (- exact_bound <? z)%Z && (z <? exact_bound)%Z.

(** The number a text stands for in arithmetic: its longest numeric
    prefix, 0 when there is none.  A prefix that goes on with [.] or an
    exponent is a float, and so is an integer the floats do not hold
    exactly: both are outside the model. *)
Definition numeric_prefix (s : pystr) : option Z :=
  let s1 := drop_spaces s in
  let '(sign, s2) :=
    match s1 with
    | 45 :: r => ((-1)%Z, r)
    | 43 :: r => (1%Z, r)
    | _ => (1%Z, s1)
    end in
  let '(n, s3) := leading_digits s2 0%Z in
  match s3 with
  | 46 :: _ | 101 :: _ | 69 :: _ => None
  | _ => if in_exact_range n then Some (sign * n)%Z else None
  end.

(** Operands of arithmetic: [Some None] is NULL. *)
Definition to_number (v : value) : option (option Z) :=
  match v with
  | VNull => Some None
  | VInt n => if in_exact_range n then Some (Some n) else None
  | VText s => Some <$> numeric_prefix s
  end.

Definition of_number (o : option Z) : value :=
  match o with Some z => VInt z | None => VNull end.

Definition sql_sub (a b : value) : option value :=
  x ← to_number a; y ← to_number b;
  match x, y with
  | Some m, Some n =>
      if in_exact_range (m - n) then Some (VInt (m - n)) else None
  | _, _ => Some VNull
  end.

(** Comparison and conjunction are modelled on integers and NULL. *)
Definition as_int (v : value) : option (option Z) :=
  match v with
  | VNull => Some None
  | VInt n => Some (Some n)
  | VText _ => None
  end.

Definition sql_ge (a b : value) : option value :=
  x ← as_int a; y ← as_int b;
  match x, y with
  | Some m, Some n => Some (VInt (if (n <=? m)%Z then 1 else 0))
  | _, _ => Some VNull
  end.

Definition sql_and (a b : value) : option value :=
  x ← as_int a; y ← as_int b;
  match x, y with
  | Some 0%Z, _ | _, Some 0%Z => Some (VInt 0)
  | Some _, Some _ => Some (VInt 1)
  | _, _ => Some VNull
  end.

Section Eval.
Variable today : pystr.          (* what DATE('now') returns *)
Variable cols : list column.
Variable r : row.

Fixpoint eval (e : expr) : option value :=
  match e with
  | ECol c => i ← find_col cols c; r !! i
  | EInt n => Some (VInt n)
  | ENull => Some VNull
  | EDateNow => Some (VText today)
  | ESub a b => x ← eval a; y ← eval b; sql_sub x y
  | EGe a b => x ← eval a; y ← eval b; sql_ge x y
  | EAnd a b => x ← eval a; y ← eval b; sql_and x y
  | ENotNull a =>
      x ← eval a;
      Some (VInt (if bool_decide (x = VNull) then 0 else 1))
  end.

(** A row passes [WHERE] when the condition is a non-zero integer. *)
Definition passes (cond : expr) : option bool :=
  v ← eval cond;
  match v with
  | VNull => Some false
  | VInt n => Some (negb (n =? 0)%Z)
  | VText _ => None
  end.
End Eval.

Fixpoint expr_cols (e : expr) : list pystr :=
  match e with
  | ECol c => [c]
  | EInt _ | ENull | EDateNow => []
  | ESub a b | EGe a b | EAnd a b => expr_cols a ++ expr_cols b
  | ENotNull a => expr_cols a
  end.

Definition missing_col (cols : list column) (names : list pystr)
  : option pystr :=
  List.find (fun cn => bool_decide (find_col cols cn = None)) names.

Inductive db_error :=
| NoSuchTable (tn : pystr)
| NoSuchColumn (cn : pystr)
| SyntaxError (near : pystr)   (* near "...": syntax error *)
| DatabaseLocked.              (* database is locked *)

(** The driver's exceptions (and the two of Python the helpers can
    raise themselves). *)
Inductive exn :=
| IntegrityError
| OperationalError (e : db_error)
| ProgrammingError
| IndexError
| NameError (name : pystr).

Inductive run_result :=
| Rows (rs : list row)
| Changed (d : database)
| Failed (e : exn)
| OutOfModel.

Definition select_rows (today : pystr) (t : table) (proj cond : expr)
  : option (list row) :=
  @List.concat row <$>
    mapM (fun r =>
            keep ← passes today (tbl_cols t) r cond;
            if keep : bool then v ← eval today (tbl_cols t) r proj; Some [[v]]
            else Some [])
         (tbl_rows t).

(** *** Storing a row *)

Fixpoint contains (needle hay : pystr) : bool :=
  match hay with
  | [] => pystr_eqb needle []
  | _ :: rest =>
      pystr_eqb (firstn (length needle) hay) needle || contains needle rest
  end.

Inductive affinity := A_INTEGER | A_TEXT | A_BLOB | A_REAL | A_NUMERIC.

(** Column affinity from the declared type. *)
Definition affinity_of (ty : pystr) : affinity :=
  let u := upper ty in
  if contains (lit "INT") u then A_INTEGER
  else if contains (lit "CHAR") u || contains (lit "CLOB") u
          || contains (lit "TEXT") u then A_TEXT
  else if contains (lit "BLOB") u || pystr_eqb u [] then A_BLOB
  else if contains (lit "REAL") u || contains (lit "FLOA") u
          || contains (lit "DOUB") u then A_REAL
  else A_NUMERIC.

(** The value a column stores for a given value.  Conversions of text to
    numbers and of integers to floats are outside the model. *)
Definition store_as (ty : pystr) (v : value) : option value :=
  match v, affinity_of ty with
  | VNull, _ => Some VNull
  | _, A_BLOB => Some v
  | VInt n, A_TEXT => Some (VText (str_of_Z n))
  | VText s, A_TEXT => Some v
  | VInt n, (A_INTEGER | A_NUMERIC) => Some v
  | _, _ => None
  end.

Fixpoint supplied (cols : list pystr) (vals : list value) (cn : pystr)
  : option value :=
  match cols, vals with
  | c :: cs, v :: vs => if same_name c cn then Some v else supplied cs vs cn
  | _, _ => None
  end.

Definition new_row (t : table) (cols : list pystr) (vals : list value)
  : option row :=
  mapM (fun c =>
          match supplied cols vals (col_name c) with
          | Some v => store_as (col_type c) v
          | None => Some (match col_default c with
                          | Some (_, v) => v
                          | None => VNull
                          end)
          end)
       (tbl_cols t).

Definition pk_positions (cols : list column) : list nat :=
  List.map fst (List.filter (fun p => negb (col_pk (snd p) =? 0))
                            (imap (fun i c => (i, c)) cols)).

Definition key_of (cols : list column) (r : row) : list (option value) :=
  List.map (fun i => r !! i) (pk_positions cols).

Definition pk_conflict (t : table) (r : row) : bool :=
  match pk_positions (tbl_cols t) with
  | [] => false
  | _ => existsb (fun r' => bool_decide (key_of (tbl_cols t) r'
                                         = key_of (tbl_cols t) r))
                 (tbl_rows t)
  end.

Definition notnull_violation (t : table) (r : row) : bool :=
  existsb (fun p => col_notnull (fst p) && bool_decide (snd p = VNull))
          (zip (tbl_cols t) r).

Definition distinct_names (names : list pystr) : bool :=
  bool_decide (NoDup (List.map upper names)).

Definition run_insert (or_ignore : bool) (d : database) (t : table)
    (cols : list pystr) (vals : list value) : run_result :=
  match missing_col (tbl_cols t) cols with
  | Some cn => Failed (OperationalError (NoSuchColumn cn))
  | None =>
      if negb (tbl_ordinary t) || negb (distinct_names cols) then OutOfModel
      else match new_row t cols vals with
           | None => OutOfModel
           | Some r =>
               if existsb (fun k => bool_decide (k = Some VNull))
                          (key_of (tbl_cols t) r)
               then OutOfModel   (* a NULL key: rowid assignment *)
               else if notnull_violation t r || pk_conflict t r then
                 if or_ignore then Changed d else Failed IntegrityError
               else
                 Changed (replace_table d
                            (Table (tbl_name t) (tbl_cols t)
                                   (tbl_rows t ++ [r]) true))
           end
  end.

(** A query against a database. *)
Definition run_query (today : pystr) (d : database) (q : query)
  : run_result :=
  match q with
  | SelectCount tn =>
      if internal_name tn then OutOfModel
      else match find_table d tn with
           | Some t => Rows [[VInt (Z.of_nat (length (tbl_rows t)))]]
           | None => Failed (OperationalError (NoSuchTable tn))
           end
  | Select proj tn cond =>
      if internal_name tn then OutOfModel
      else match find_table d tn with
           | None => Failed (OperationalError (NoSuchTable tn))
           | Some t =>
               match missing_col (tbl_cols t)
                       (expr_cols proj ++ expr_cols cond) with
               | Some cn => Failed (OperationalError (NoSuchColumn cn))
               | None =>
                   match select_rows today t proj cond with
                   | Some rs => Rows rs
                   | None => OutOfModel
                   end
               end
           end
  end.

(** One statement against one database.  The pragma on a table that is
    not there answers with no rows. *)
Definition run (today : pystr) (d : database) (s : stmt) : run_result :=
  match s with
  | Query q => run_query today d q
  | PragmaTableInfo tn =>
      if internal_name tn then OutOfModel
      else match find_table d tn with
           | Some t => Rows (table_info t)
           | None => Rows []
           end
  | Insert or_ignore tn cols vals =>
      if internal_name tn then OutOfModel
      else match find_table d tn with
           | None => Failed (OperationalError (NoSuchTable tn))
           | Some t => run_insert or_ignore d t cols vals
           end
  end.

End Engine.

(** ** The driver: files, connections, cursors *)

Export Engine.

Record timestamp := Timestamp {
  ts_year : N; ts_month : N; ts_day : N;
  ts_hour : N; ts_minute : N; ts_second : N
}.

Definition digit (n : N) : pychar := 48 + n mod 10.
Definition pad2 (n : N) : pystr := [digit (n / 10); digit n].
Definition pad4 (n : N) : pystr :=
  [digit (n / 1000); digit (n / 100); digit (n / 10); digit n].

(** [DATE(t)] is [YYYY-MM-DD], [TIME(t)] is [HH:MM:SS]. *)
Definition sql_date (t : timestamp) : pystr :=
  pad4 (ts_year t) ++ lit "-" ++ pad2 (ts_month t) ++ lit "-" ++ pad2 (ts_day t).
Definition sql_time (t : timestamp) : pystr :=
  pad2 (ts_hour t) ++ lit ":" ++ pad2 (ts_minute t) ++ lit ":"
  ++ pad2 (ts_second t).

(** A connection works on the database of its file; statements that write
    open a transaction, whose working copy is [conn_pending] until
    [commit] stores it in the file. *)
Record connection := Connection {
  conn_file : pystr;
  conn_pending : option database;
  conn_open : bool
}.

Record cursor_obj := Cursor {
  cur_conn : nat;        (* the connection it was made from *)
  cur_rows : list row    (* rows of the last statement, not fetched yet *)
}.

Inductive printed :=
| PStr (s : pystr)   (* print(<str>) *)
| PObj (r : row).    (* print(<tuple>): its repr is left uninterpreted *)

(** Everything a cell can read or change.  A file is named by the path
    that [sqlite3.connect] is given for it, one path per file.  Connection
    and cursor objects are named by their position in [conns] and
    [cursors]; [global_c] is the module-level name [c]; [issued] records
    the texts handed to [execute]. *)
Record world := World {
  files : gmap pystr database;
  conns : list connection;
  cursors : list cursor_obj;
  global_c : option nat;
  stdout : list printed;
  clock : timestamp;
  issued : list pystr
}.

Definition with_files (f : gmap pystr database) (w : world) : world :=
  World f (conns w) (cursors w) (global_c w) (stdout w) (clock w) (issued w).
Definition with_conns (cs : list connection) (w : world) : world :=
  World (files w) cs (cursors w) (global_c w) (stdout w) (clock w) (issued w).
Definition with_cursors (cs : list cursor_obj) (w : world) : world :=
  World (files w) (conns w) cs (global_c w) (stdout w) (clock w) (issued w).
Definition with_global_c (c : option nat) (w : world) : world :=
  World (files w) (conns w) (cursors w) c (stdout w) (clock w) (issued w).
Definition with_stdout (o : list printed) (w : world) : world :=
  World (files w) (conns w) (cursors w) (global_c w) o (clock w) (issued w).
Definition with_issued (l : list pystr) (w : world) : world :=
  World (files w) (conns w) (cursors w) (global_c w) (stdout w) (clock w) l.

(** What a run of Python code comes to: a value, an exception, or a step
    the model does not cover. *)
Inductive outcome (A : Type) :=
| Ret (a : A)
| Raise (e : exn)
| NotModelled.
Arguments Ret {A} a.
Arguments Raise {A} e.
Arguments NotModelled {A}.

Definition py (A : Type) : Type := world -> outcome A * world.

Definition ret {A} (a : A) : py A := fun w => (Ret a, w).
Definition raise {A} (e : exn) : py A := fun w => (Raise e, w).
Definition bind {A B} (m : py A) (k : A -> py B) : py B :=
  fun w =>
    match m w with
    | (Ret a, w') => k a w'
    | (Raise e, w') => (Raise e, w')
    | (NotModelled, w') => (NotModelled, w')
    end.

Declare Scope py_scope.
Delimit Scope py_scope with py.
Notation "x <- m ;; k" := (bind m (fun x => k))
  (at level 100, m at next level, right associativity) : py_scope.
Notation "m ;; k" := (bind m (fun _ => k))
  (at level 100, right associativity) : py_scope.
Local Open Scope py_scope.

(** [try: m except E: h], where [handler] picks the exceptions caught. *)
Definition try_except {A} (m : py A) (handler : exn -> option (py A)) : py A :=
  fun w =>
    match m w with
    | (Raise e, w') =>
        match handler e with
        | Some h => h w'
        | None => (Raise e, w')
        end
    | r => r
    end.

(** [for x in xs: acc = body x acc] *)
Fixpoint for_each {A S} (xs : list A) (body : A -> S -> py S) (acc : S)
  : py S :=
  match xs with
  | [] => ret acc
  | x :: rest => acc' <- body x acc ;; for_each rest body acc'
  end.

Definition print (p : printed) : py unit :=
  fun w => (Ret tt, with_stdout (stdout w ++ [p]) w).

(** [xs[i]] on a list or tuple. *)
Definition index {A} (xs : list A) (i : nat) : py A :=
  match xs !! i with
  | Some x => ret x
  | None => raise IndexError
  end.

(** The database a connection sees. *)
Definition stored (w : world) (file : pystr) : database :=
  default [] (files w !! file).

Definition view (w : world) (cn : connection) : database :=
  default (stored w (conn_file cn)) (conn_pending cn).

(** A connection holds a transaction on [file]: it is open on that file
    and has written since its last commit. *)
Definition holds_transaction (file : pystr) (cn : connection) : bool :=
  conn_open cn && pystr_eqb (conn_file cn) file
  && match conn_pending cn with Some _ => true | None => false end.

(** Some connection holds a transaction on [file]. *)
Definition busy (w : world) (file : pystr) : bool :=
  existsb (holds_transaction file) (conns w).

(** A connection other than number [conn] holds a transaction on
    [file]. *)
Definition contended (w : world) (conn : nat) (file : pystr) : bool :=
  existsb (holds_transaction file) (delete conn (conns w)).

(** Paths that name no file: the empty path and [:memory:] stand for a
    private database of the connection, which the model does not follow. *)
Definition special_path (file : pystr) : bool :=
  pystr_eqb file [] || pystr_eqb file (lit ":memory:").

(** [sqlite3.connect(file)] on a file that is there.  For a path that
    names no file the driver creates one, empty, or fails, by what the
    directory allows: the model, which holds no directories, does not
    follow it. *)
Definition sqlite3_connect (file : pystr) : py nat :=
  fun w =>
    if special_path file then (NotModelled, w)
    else
      match files w !! file with
      | None => (NotModelled, w)
      | Some _ =>
          (Ret (length (conns w)),
           with_conns (conns w ++ [Connection file None true]) w)
      end.

(** [conn.cursor()] *)
Definition conn_cursor (conn : nat) : py nat :=
  fun w => (Ret (length (cursors w)),
            with_cursors (cursors w ++ [Cursor conn []]) w).

(** [conn.commit()]: the pending changes go to the file. *)
Definition conn_commit (conn : nat) : py unit :=
  fun w =>
    match conns w !! conn with
    | None => (NotModelled, w)
    | Some cn =>
        if conn_open cn then
          match conn_pending cn with
          | Some d =>
              (Ret tt,
               with_files (<[conn_file cn := d]> (files w))
                 (with_conns (<[conn := Connection (conn_file cn) None true]>
                                (conns w)) w))
          | None => (Ret tt, w)
          end
        else (Raise ProgrammingError, w)
    end.

(** [conn.close()]: a pending transaction is not committed. *)
Definition conn_close (conn : nat) : py unit :=
  fun w =>
    match conns w !! conn with
    | None => (NotModelled, w)
    | Some cn =>
        (Ret tt,
         with_conns (<[conn := Connection (conn_file cn) None false]>
                       (conns w)) w)
    end.

Definition writes (s : stmt) : bool :=
  match s with
  | Insert _ _ _ _ => true
  | _ => false
  end.

Definition set_rows (cursor : nat) (rs : list row) (w : world) : world :=
  match cursors w !! cursor with
  | Some co => with_cursors (<[cursor := Cursor (cur_conn co) rs]> (cursors w)) w
  | None => w
  end.

Definition set_pending (conn : nat) (d : database) (w : world) : world :=
  match conns w !! conn with
  | Some cn =>
      with_conns (<[conn := Connection (conn_file cn) (Some d) (conn_open cn)]>
                    (conns w)) w
  | None => w
  end.

(** What the engine and the driver answer to a statement of connection
    number [conn], with [params] bound.

    - What the engine finds when it prepares the statement (no such table,
      no such column) comes first.
    - None of the recognised statements has a placeholder, so any bound
      value is one too many: [ProgrammingError].
    - While another connection holds a transaction on the file, a
      statement that writes is refused ([database is locked]) when it is
      run; a statement that reads is answered as long as that transaction
      has not spilled to the file and refused otherwise, which the model
      does not decide (and so for everything else it would have to read
      the file for). *)
Definition answer (w : world) (conn : nat) (cn : connection) (st : stmt)
    (params : list value) : run_result :=
  let locked := contended w conn (conn_file cn) in
  match run (sql_date (clock w)) (view w cn) st with
  | OutOfModel => OutOfModel
  | Failed (OperationalError e) =>
      if locked then OutOfModel else Failed (OperationalError e)
  | r =>
      match params with
      | _ :: _ => if locked then OutOfModel else Failed ProgrammingError
      | [] =>
          if locked then
            if writes st then Failed (OperationalError DatabaseLocked)
            else OutOfModel
          else r
      end
  end.

(** [cursor.execute(sql, params)].  A statement that writes and gets as
    far as being run opens a transaction first: after an [IntegrityError]
    the transaction is open, with nothing changed. *)
Definition execute (cursor : nat) (sql : pystr) (params : list value)
  : py unit :=
  fun w0 =>
    let w := with_issued (issued w0 ++ [sql]) w0 in
    match cursors w !! cursor with
    | None => (NotModelled, w)
    | Some co =>
        match conns w !! cur_conn co with
        | None => (NotModelled, w)
        | Some cn =>
            if negb (conn_open cn) then (Raise ProgrammingError, w)
            else
              match parse_sql sql with
              | None =>
                  match syntax_error sql with
                  | Some near =>
                      (Raise (OperationalError (SyntaxError near)),
                       set_rows cursor [] w)
                  | None => (NotModelled, w)
                  end
              | Some st =>
                  let d := view w cn in
                  let w1 :=
                    set_rows cursor []
                      (if writes st then set_pending (cur_conn co) d w
                       else w) in
                  match answer w (cur_conn co) cn st params with
                  | Rows rs => (Ret tt, set_rows cursor rs w1)
                  | Changed d' => (Ret tt, set_pending (cur_conn co) d' w1)
                  | Failed IntegrityError => (Raise IntegrityError, w1)
                  | Failed e => (Raise e, set_rows cursor [] w)
                  | OutOfModel => (NotModelled, w)
                  end
              end
        end
    end.

(** [cursor.fetchall()] *)
Definition fetchall (cursor : nat) : py (list row) :=
  fun w =>
    match cursors w !! cursor with
    | None => (NotModelled, w)
    | Some co =>
        match conns w !! cur_conn co with
        | None => (NotModelled, w)
        | Some cn =>
            if conn_open cn then (Ret (cur_rows co), set_rows cursor [] w)
            else (Raise ProgrammingError, w)
        end
    end.

(** Reading and binding the module-level name [c]. *)
Definition read_global_c : py nat :=
  fun w =>
    match global_c w with
    | Some c => (Ret c, w)
    | None => (Raise (NameError (lit "c")), w)
    end.

Definition bind_global_c (c : nat) : py unit :=
  fun w => (Ret tt, with_global_c (Some c) w).

(** A Python [dict]: keys in insertion order; assigning to a key that is
    present keeps its place. *)
Definition pydict := list (value * value).

Fixpoint dict_set (k v : value) (d : pydict) : pydict :=
  match d with
  | [] => [(k, v)]
  | (k', v') :: rest =>
      if bool_decide (k' = k) then (k', v) :: rest
      else (k', v') :: dict_set k v rest
  end.

Definition dict_keys (d : pydict) : list value := List.map fst d.

(** ** The notebook *)

Definition newline : pystr := [10].

(** *** Cell "Inserting and updating rows" *)

(** ["INSERT INTO {tn} ({idf}, {cn}) VALUES (123456, 'test')".format(...)]
    with the arguments [execute] receives (no bound values). *)
Definition insert_statement (tn idf cn : pystr) : pystr * list value :=
  (lit "INSERT INTO " ++ tn ++ lit " (" ++ idf ++ lit ", " ++ cn
   ++ lit ") VALUES (123456, 'test')", []).

Definition insert_or_ignore_statement (tn idf cn : pystr)
  : pystr * list value :=
  (lit "INSERT OR IGNORE INTO " ++ tn ++ lit " (" ++ idf ++ lit ", " ++ cn
   ++ lit ") VALUES (123456, 'test')", []).

(** [try: c.execute(INSERT ...)
     except sqlite3.IntegrityError: print('ERROR: ...'.format(id_column))] *)
Definition insert_step_A (c : nat) (table_name id_column column_name : pystr)
  : py unit :=
  try_except
    (let '(sql, params) := insert_statement table_name id_column column_name in
     execute c sql params)
    (fun e =>
       match e with
       | IntegrityError =>
           Some (print (PStr (lit "ERROR: ID already exists in PRIMARY KEY column "
                              ++ id_column)))
       | _ => None
       end).

(** [c.execute(INSERT OR IGNORE ...)] *)
Definition insert_step_B (c : nat) (table_name id_column column_name : pystr)
  : py unit :=
  let '(sql, params) :=
    insert_or_ignore_statement table_name id_column column_name in
  execute c sql params.

(** *** Cell "Querying the database", query 5, and its two renderings in
    the cell "Security and injection attacks" *)

(** ["SELECT * FROM {tn} WHERE {idf}={my_id}".format(tn=.., idf=.., my_id=..)] *)
Definition select_by_id_statement (tn idf : pystr) (my_id : value)
  : pystr * list value :=
  (lit "SELECT * FROM " ++ tn ++ lit " WHERE " ++ idf ++ lit "=" ++ str my_id,
   []).

(** ["SELECT * FROM {tn} WHERE {idf}=?".format(tn=.., idf=..), (123456,)] *)
Definition select_by_id_bound (tn idf : pystr) : pystr * list value :=
  (lit "SELECT * FROM " ++ tn ++ lit " WHERE " ++ idf ++ lit "=?",
   [VInt 123456]).

(** Placeholders of a statement text: its [?] characters. *)
Definition placeholders (sql : pystr) : nat :=
  length (List.filter (fun ch => ch =? 63) sql).

(** *** Cell "Date and time operations", query 5 *)

(** ["SELECT {idf} FROM {tn} WHERE DATE('now') - {dc} >= 1 AND
      DATE('now') - {tc} >= 12".format(...)] *)
Definition older_entries_sql (idf tn dc tc : pystr) : pystr :=
  lit "SELECT " ++ idf ++ lit " FROM " ++ tn ++ lit " WHERE DATE('now') - "
  ++ dc ++ lit " >= 1 AND DATE('now') - " ++ tc ++ lit " >= 12".

Definition older_entries (c : nat) (idf tn dc tc : pystr) : py (list row) :=
  execute c (older_entries_sql idf tn dc tc) [] ;;
  fetchall c.

(** *** Cell "Printing a database summary" *)

(** [def connect(sqlite_file)] *)
Definition connect (sqlite_file : pystr) : py (nat * nat) :=
  conn <- sqlite3_connect sqlite_file ;;
  c <- conn_cursor conn ;;
  ret (conn, c).

(** [def close(conn)]: the [conn.commit()] line is commented out. *)
Definition close (conn : nat) : py unit :=
  conn_close conn.

Definition total_rows_sql (table_name : pystr) : pystr :=
  lit "SELECT COUNT(*) FROM " ++ table_name.

(** [def total_rows(cursor, table_name, print_out=False)] *)
Definition total_rows (cursor : nat) (table_name : pystr) (print_out : bool)
  : py value :=
  execute cursor (total_rows_sql table_name) [] ;;
  count <- fetchall cursor ;;
  (if print_out then
     r <- index count 0 ;; v <- index r 0 ;;
     print (PStr (newline ++ lit "Total rows: " ++ str v))
   else ret tt) ;;
  r <- index count 0 ;;
  index r 0.

Definition table_info_sql (table_name : pystr) : pystr :=
  lit "PRAGMA TABLE_INFO(" ++ table_name ++ lit ")".

(** [def table_col_info(cursor, table_name, print_out=False)] *)
Definition table_col_info (cursor : nat) (table_name : pystr)
    (print_out : bool) : py (list row) :=
  execute cursor (table_info_sql table_name) [] ;;
  info <- fetchall cursor ;;
  (if print_out then
     print (PStr (newline ++ lit "Column Info:" ++ newline
                  ++ lit "ID, Name, Type, NotNull, DefaultVal, PrimaryKey")) ;;
     for_each info (fun col _ => print (PObj col)) tt
   else ret tt) ;;
  ret info.

(** ['SELECT ({0}) FROM {1} ' 'WHERE {0} IS NOT NULL'.format(col, table_name)] *)
Definition not_null_sql (col : value) (table_name : pystr) : pystr :=
  lit "SELECT (" ++ str col ++ lit ") FROM " ++ table_name ++ lit " WHERE "
  ++ str col ++ lit " IS NOT NULL".

(** [def values_in_col(cursor, table_name, print_out=True)].  The pragma
    goes through the parameter [cursor]; the per-column queries go through
    the module-level [c].  The second loop runs over the keys the first
    loop put in the dictionary (assigning to a key that is present does not
    disturb the iteration). *)
Definition values_in_col (cursor : nat) (table_name : pystr)
    (print_out : bool) : py pydict :=
  execute cursor (table_info_sql table_name) [] ;;
  info <- fetchall cursor ;;
  col_dict <- for_each info
                (fun col d => k <- index col 1 ;; ret (dict_set k (VInt 0) d))
                [] ;;
  col_dict <- for_each (dict_keys col_dict)
                (fun col d =>
                   c <- read_global_c ;;
                   execute c (not_null_sql col table_name) [] ;;
                   rows <- fetchall c ;;
                   let number_rows := VInt (Z.of_nat (length rows)) in
                   ret (dict_set col number_rows d))
                col_dict ;;
  (if print_out then
     print (PStr (newline ++ lit "Number of entries per column:")) ;;
     for_each col_dict
       (fun i _ => print (PStr (str (fst i) ++ lit ": " ++ str (snd i)))) tt
   else ret tt) ;;
  ret col_dict.

(** The three reporting calls of the [__main__] block, in its order and
    with its arguments, together with what each call returns. *)
Definition report (cursor : nat) (table_name : pystr)
  : py (value * list row * pydict) :=
  n <- total_rows cursor table_name true ;;
  info <- table_col_info cursor table_name true ;;
  d <- values_in_col cursor table_name true ;;
  ret (n, info, d).

(** [if __name__ == '__main__':] for a given file and table name.  The
    assignment [conn, c = connect(sqlite_file)] binds the module-level
    [c]. *)
Definition main_with (sqlite_file table_name : pystr) : py unit :=
  p <- connect sqlite_file ;;
  let '(conn, c) := p in
  bind_global_c c ;;
  report c table_name ;;
  close conn.

Definition main : py unit :=
  main_with (lit "my_first_db.sqlite") (lit "my_table_3").

(** ** Names the model follows through the engine *)

(** A name that matches the identifier grammar and is not a keyword. *)
Definition plain_word (s : pystr) : bool :=
  matches_grammar s && bool_decide (Sql.keyword_of s = None).

(** A table name: a plain word that is not one of the engine's own. *)
Definition plain_table_name (tn : pystr) : bool :=
  plain_word tn && negb (internal_name tn).

(** The next piece of a template ends the name before it: it starts with
    a character that is not a word character. *)
Definition closes_word (seg : pystr) : bool :=
  match seg with
  | ch :: _ => negb (Sql.word_char ch)
  | [] => false
  end.

(** ** Vocabulary of the statements below *)

Fixpoint starts_with (p s : pystr) : bool :=
  match p, s with
  | [], _ => true
  | a :: p', b :: s' => (a =? b) && starts_with p' s'
  | _ :: _, [] => false
  end.

(** A statement text that opens with [SELECT] or [PRAGMA]. *)
Definition read_text (sql : pystr) : bool :=
  starts_with (lit "SELECT ") sql || starts_with (lit "PRAGMA ") sql.

(** The connection a cursor object belongs to. *)
Definition cursor_conn (w : world) (cursor : nat) : option nat :=
  cur_conn <$> cursors w !! cursor.

(** Two worlds with the same files, the same connections (open or not,
    with the same pending changes), the same cursor objects on the same
    connections, the same binding of [c] and the same clock.  They may
    differ in what was printed, in the texts issued so far and in the rows
    a cursor still holds. *)
Definition same_frame (w1 w2 : world) : Prop :=
  files w1 = files w2 /\ conns w1 = conns w2
  /\ cur_conn <$> cursors w1 = cur_conn <$> cursors w2
  /\ global_c w1 = global_c w2 /\ clock w1 = clock w2.

(** A computation that only reads: its outcome is decided by the frame,
    it leaves the frame as it found it, and every text it hands to
    [execute] opens with [SELECT] or [PRAGMA]. *)
Definition quiet {A} (m : py A) : Prop :=
  forall w1 w2, same_frame w1 w2 ->
    fst (m w1) = fst (m w2)
    /\ same_frame w1 (snd (m w1))
    /\ exists l, issued (snd (m w1)) = issued w1 ++ l
                 /\ Forall (fun sql => read_text sql = true) l.

(** [cursor.execute(sql)] followed by [cursor.fetchall()]. *)
Definition query (cursor : nat) (sql : pystr) : py (list row) :=
  execute cursor sql [] ;; fetchall cursor.

(** What [query] comes to, read off the frame. *)
Definition query_outcome (w : world) (cursor : nat) (sql : pystr)
  : outcome (list row) :=
  match cursor_conn w cursor with
  | None => NotModelled
  | Some k =>
      match conns w !! k with
      | None => NotModelled
      | Some cn =>
          if negb (conn_open cn) then Raise ProgrammingError
          else match parse_sql sql with
               | None =>
                   match syntax_error sql with
                   | Some near => Raise (OperationalError (SyntaxError near))
                   | None => NotModelled
                   end
               | Some st =>
                   match answer w k cn st [] with
                   | Rows rs => Ret rs
                   | Changed _ => Ret []
                   | Failed e => Raise e
                   | OutOfModel => NotModelled
                   end
               end
      end
  end.

(** The cursor [cursor] is usable in [w]: it belongs to connection [conn],
    which is open and sees the database [d], and no other connection holds
    a transaction on its file. *)
Definition cursor_on (w : world) (cursor conn : nat) (d : database) : Prop :=
  cursor_conn w cursor = Some conn
  /\ exists cn, conns w !! conn = Some cn /\ conn_open cn = true
                /\ view w cn = d
                /\ contended w conn (conn_file cn) = false.

(** Rows of [t] whose column number [i] is not NULL. *)
Definition non_null_count (t : table) (i : nat) : nat :=
  length (List.filter (fun r => negb (bool_decide (r !! i = Some VNull)))
                      (tbl_rows t)).

(** A table the model follows: plain column names, no two alike, and
    every row as wide as the column list. *)
Definition wf_table (t : table) : bool :=
  forallb (fun c => plain_word (col_name c)) (tbl_cols t)
  && distinct_names (List.map col_name (tbl_cols t))
  && forallb (fun r => (length r =? length (tbl_cols t))%nat) (tbl_rows t).

(** Columns with their position in the table. *)
Fixpoint numbered (i : nat) (cols : list column) : list (nat * column) :=
  match cols with
  | [] => []
  | c :: rest => (i, c) :: numbered (S i) rest
  end.

(** The dictionary entry of a column: its name, and the number of rows in
    which it is not NULL. *)
Definition count_entry (t : table) (p : nat * column) : value * value :=
  (VText (col_name (snd p)), VInt (Z.of_nat (non_null_count t (fst p)))).

(** The per-column counts of [t], in the order of its columns. *)
Definition column_counts (t : table) : pydict :=
  List.map (count_entry t) (numbered 0 (tbl_cols t)).

(** [m] run in [w] returns [a]. *)
Definition yields {A} (m : py A) (w : world) (a : A) : Prop :=
  fst (m w) = Ret a.

(** [w] is set for [values_in_col]: the cursor passed in is usable and the
    module-level [c] is bound to that same cursor, as [__main__] binds
    it. *)
Definition ready (w : world) (cursor conn : nat) (d : database) : Prop :=
  cursor_on w cursor conn d /\ global_c w = Some cursor.

(** ** Dates, for the age filter *)

(** Days since 1970-01-01 of a date of the Gregorian calendar. *)
Definition days_from_civil (y m d : Z) : Z :=
  let y' := if (m <=? 2)%Z then (y - 1)%Z else y in
  let era := (y' / 400)%Z in
  let yoe := (y' - era * 400)%Z in
  let mp := if (m <=? 2)%Z then (m + 9)%Z else (m - 3)%Z in
  let doy := ((153 * mp + 2) / 5 + d - 1)%Z in
  let doe := (yoe * 365 + yoe / 4 - yoe / 100 + doy)%Z in
  (era * 146097 + doe - 719468)%Z.

Definition seconds_of (t : timestamp) : Z :=
  (days_from_civil (Z.of_N (ts_year t)) (Z.of_N (ts_month t))
                   (Z.of_N (ts_day t)) * 86400
   + Z.of_N (ts_hour t) * 3600 + Z.of_N (ts_minute t) * 60
   + Z.of_N (ts_second t))%Z.

(** "Older than 1 day and 12 hours": written at least 36 hours before
    [now]. *)
Definition older_than_1_day_12_hours (now written : timestamp) : bool :=
  (36 * 3600 <=? seconds_of now - seconds_of written)%Z.

(** ** The notebook's tables *)

(** [my_table_2] as the cells "Creating a new SQLite database" and "Adding
    new columns" leave it. *)
Definition my_table_2 (rows : list row) : table :=
  Table (lit "my_table_2")
    [ Column (lit "my_1st_column") (lit "INTEGER") false None 1;
      Column (lit "my_2nd_column") (lit "TEXT") false None 0;
      Column (lit "my_3rd_column") (lit "TEXT") false
             (Some (lit "'Hello World'", VText (lit "Hello World"))) 0 ]
    rows true.

(** The row the cell "Date and time operations" leaves for an entry
    written at [t]: [DATE('now')], [TIME('now')] and [CURRENT_TIMESTAMP]
    as of [t]. *)
Definition entry_row (entry : pystr * timestamp) : row :=
  let '(id, t) := entry in
  [ VText id; VText (sql_date t); VText (sql_time t);
    VText (sql_date t ++ lit " " ++ sql_time t) ].

(** [my_table_3] with the given entries. *)
Definition my_table_3 (entries : list (pystr * timestamp)) : table :=
  Table (lit "my_table_3")
    [ Column (lit "id") (lit "TEXT") false None 1;
      Column (lit "date") [] false None 0;
      Column (lit "time") [] false None 0;
      Column (lit "date_time") [] false None 0 ]
    (List.map entry_row entries) true.

(** The world right after [conn, c = connect(file)] at module level, for
    a file that holds [d]. *)
Definition opened (file : pystr) (d : database) (now : timestamp) : world :=
  World {[ file := d ]} [Connection file None true] [Cursor 0%nat []]
        (Some 0%nat) [] now [].

(** A session in which an earlier cell has run: its connection (number 0)
    is closed, and a second connection (number 1) with its own cursor
    (number 1) is open on the same file.  [g] is what the module-level [c]
    is bound to. *)
Definition later_session (file : pystr) (d : database) (now : timestamp)
    (g : option nat) : world :=
  World {[ file := d ]}
        [Connection file None false; Connection file None true]
        [Cursor 0%nat []; Cursor 1%nat []] g [] now [].

(** Two open connections on two files, each with a cursor. *)
Definition two_files (file1 : pystr) (d1 : database) (file2 : pystr)
    (d2 : database) (now : timestamp) (g : option nat) : world :=
  World (<[ file2 := d2 ]> {[ file1 := d1 ]})
        [Connection file1 None true; Connection file2 None true]
        [Cursor 0%nat []; Cursor 1%nat []] g [] now [].

Definition march_6 : timestamp := Timestamp 2014 3 6 16 26 37.
Definition march_10 : timestamp := Timestamp 2014 3 10 8 0 0.

(** ** More of the notebook *)



(** A computation that prints nothing. *)
Definition silent {A} (m : py A) : Prop :=
  forall w, stdout (snd (m w)) = stdout w.

(** What the three reporting calls print for a row count, the descriptors
    and the per-column counts. *)
Definition report_output (n : value) (info : list row) (counts : pydict)
  : list printed :=
  [PStr (newline ++ lit "Total rows: " ++ str n)]
  ++ [PStr (newline ++ lit "Column Info:" ++ newline
            ++ lit "ID, Name, Type, NotNull, DefaultVal, PrimaryKey")]
  ++ List.map PObj info
  ++ [PStr (newline ++ lit "Number of entries per column:")]
  ++ List.map (fun i => PStr (str (fst i) ++ lit ": " ++ str (snd i))) counts.

(** The entries the age filter of the notebook selects at [now]: those
    whose year is before this year (and whose hour is at least 12 less
    than this year). *)
Definition age_filter_selects (now : timestamp) (entry : pystr * timestamp)
  : bool :=
  (ts_year (snd entry) + 1 <=? ts_year now)
  && (ts_hour (snd entry) + 12 <=? ts_year now).

(** A timestamp that [DATE] and [TIME] render in their fixed widths. *)
Definition renderable (t : timestamp) : bool :=
  (ts_year t <? 10000) && (ts_hour t <? 100).

(** ** Reading the statements of the summary functions *)

Section Lexing.
Import Sql.

Lemma ident_start_char ch : ident_start ch = true -> ident_char ch = true.
Proof.
  unfold ident_start, ident_char. intros H.
  apply orb_true_iff in H as [H | H]; rewrite H; [reflexivity |].
  apply orb_true_r.
Qed.

Lemma matches_grammar_chars s :
  matches_grammar s = true -> forallb ident_char s = true.
Proof.
  destruct s as [| ch rest]; [discriminate |]. simpl.
  intros H. apply andb_true_iff in H as [H1 H2].
  rewrite (ident_start_char _ H1), H2. reflexivity.
Qed.

Lemma ident_start_not_digit ch : ident_start ch = true -> is_digit ch = false.
Proof.
  unfold ident_start, is_letter, is_upper, is_lower, is_digit. intros H.
  rewrite !orb_true_iff, !andb_true_iff, !N.leb_le, N.eqb_eq in H.
  apply andb_false_iff. rewrite !N.leb_gt. lia.
Qed.

Lemma lex_run_app a : forall st b,
  lex_run st (a ++ b) = lex_run st a ≫= fun st' => lex_run st' b.
Proof.
  induction a as [| ch a IH]; intros st b; [reflexivity |].
  cbn [app lex_run]. destruct (lex_step st ch); [apply IH | reflexivity].
Qed.

(** A run of word characters is read into the current word. *)
Lemma ident_word_char ch : ident_char ch = true -> word_char ch = true.
Proof. unfold word_char. by intros ->. Qed.

Lemma ident_word_chars w :
  forallb ident_char w = true -> forallb word_char w = true.
Proof.
  induction w as [| ch w IH]; [done |]. cbn [forallb]. intros H.
  apply andb_true_iff in H as [Hc Hw]. by rewrite (ident_word_char _ Hc), IH.
Qed.

Lemma lex_run_word w : forall cur out,
  forallb word_char w = true ->
  lex_run (InCode cur, out) w = Some (InCode (rev w ++ cur), out).
Proof.
  induction w as [| ch w IH]; intros cur out H; [reflexivity |].
  simpl in H. apply andb_true_iff in H as [Hc Hw].
  cbn [lex_run lex_step]. rewrite Hc, (IH _ _ Hw).
  cbn [rev]. by rewrite <- app_assoc.
Qed.

Lemma flush_word w out : w <> [] -> flush (rev w ++ []) out = RWord w :: out.
Proof.
  intros Hw. rewrite app_nil_r. unfold flush.
  destruct (rev w) eqn:E.
  - apply (f_equal (@rev N)) in E. rewrite rev_involutive in E. done.
  - rewrite <- E, rev_involutive. reflexivity.
Qed.

(** The character after a word closes it. *)
Lemma lex_step_closes cur out ch :
  word_char ch = false ->
  lex_step (InCode cur, out) ch = lex_step (InCode [], flush cur out) ch.
Proof. intros H. cbn [lex_step]. rewrite H. reflexivity. Qed.

(** A name followed by the next piece of the template. *)
Lemma lex_run_name w seg rest out :
  forallb word_char w = true -> w <> [] -> closes_word seg = true ->
  lex_run (InCode [], out) (w ++ seg ++ rest)
  = lex_run (InCode [], RWord w :: out) (seg ++ rest).
Proof.
  intros Hw Hne Hseg. rewrite lex_run_app, (lex_run_word _ _ _ Hw).
  cbn [mbind option_bind].
  destruct seg as [| ch seg]; [discriminate |].
  cbn [closes_word] in Hseg. apply negb_true_iff in Hseg.
  cbn [app lex_run]. rewrite (lex_step_closes _ _ _ Hseg).
  by rewrite (flush_word _ _ Hne).
Qed.

Lemma lex_run_name_last w seg out :
  forallb word_char w = true -> w <> [] -> closes_word seg = true ->
  lex_run (InCode [], out) (w ++ seg)
  = lex_run (InCode [], RWord w :: out) seg.
Proof.
  intros Hw Hne Hseg.
  rewrite <- (app_nil_r seg) at 1. rewrite (lex_run_name _ _ _ _ Hw Hne Hseg).
  by rewrite app_nil_r.
Qed.

(** A name at the end of the text. *)
Lemma lex_name_end w out :
  forallb word_char w = true -> w <> [] ->
  lex_run (InCode [], out) w ≫= lex_end = Some (rev (RWord w :: out)).
Proof.
  intros Hw Hne. rewrite (lex_run_word _ _ _ Hw).
  cbn [mbind option_bind lex_end]. by rewrite (flush_word _ _ Hne).
Qed.

Lemma classify_plain_word w :
  plain_word w = true -> classify (RWord w) = Some (TId w).
Proof.
  unfold plain_word. intros H. apply andb_true_iff in H as [Hg Hk].
  apply bool_decide_eq_true in Hk.
  destruct w as [| ch rest]; [discriminate |].
  simpl in Hg. apply andb_true_iff in Hg as [Hs _].
  pose proof (ident_start_not_digit _ Hs) as Hd.
  unfold classify. cbn [forallb]. rewrite Hd. cbn [andb]. by rewrite Hk.
Qed.

Lemma plain_word_nonempty w : plain_word w = true -> w <> [].
Proof. by destruct w. Qed.

Lemma plain_word_chars w : plain_word w = true -> forallb word_char w = true.
Proof.
  unfold plain_word. intros H. apply andb_true_iff in H as [Hg _].
  by apply ident_word_chars, matches_grammar_chars.
Qed.

Lemma plain_table_word tn : plain_table_name tn = true -> plain_word tn = true.
Proof. unfold plain_table_name. intros H. by apply andb_true_iff in H as [? _]. Qed.

Lemma mapM_classify_cons r t rs :
  classify r = Some t ->
  mapM classify (r :: rs) = (t ::.) <$> mapM classify rs.
Proof. intros H. cbn [mapM]. rewrite H. by destruct (mapM classify rs). Qed.

End Lexing.

(** Lexing a literal piece of a template from between two words. *)
Ltac lex_piece :=
  rewrite lex_run_app;
  match goal with
  | |- context [Sql.lex_run (Sql.InCode [], ?out) (lit ?s)] =>
      let r := eval vm_compute in
                 (fun o => Sql.lex_run (Sql.InCode [], o) (lit s)) in
      change (Sql.lex_run (Sql.InCode [], out) (lit s)) with (r out);
      cbv beta; cbn [mbind option_bind]
  end.

Ltac lex_last_piece :=
  match goal with
  | |- context [Sql.lex_run (Sql.InCode [], ?out) (lit ?s)] =>
      let r := eval vm_compute in
                 (fun o => Sql.lex_run (Sql.InCode [], o) (lit s)) in
      change (Sql.lex_run (Sql.InCode [], out) (lit s)) with (r out);
      cbv beta; cbn [Sql.lex_end Sql.flush mbind option_bind]
  end.

Ltac lex_name_before_last H :=
  rewrite (lex_run_name_last _ _ _ (plain_word_chars _ H)
             (plain_word_nonempty _ H))
    by (vm_compute; reflexivity).

Ltac lex_name H :=
  rewrite (lex_run_name _ _ _ _ (plain_word_chars _ H) (plain_word_nonempty _ H))
    by (vm_compute; reflexivity).

Ltac lex_last_name H :=
  rewrite (lex_name_end _ _ (plain_word_chars _ H) (plain_word_nonempty _ H)).

Ltac classify_all :=
  cbn [rev app mbind option_bind];
  lazymatch goal with
  | |- mapM Sql.classify _ ≫= _ = _ => idtac
  end;
  repeat (erewrite mapM_classify_cons
            by first [ apply classify_plain_word; eassumption
                     | vm_compute; reflexivity ]);
  cbn [mapM mret option_ret fmap option_fmap option_map mbind option_bind];
  lazymatch goal with
  | |- parse_tokens _ = _ => idtac
  end.

Section Parsing.
Import Sql.

Lemma parse_total_rows_sql tn :
  plain_word tn = true ->
  parse_sql (total_rows_sql tn) = Some (Query (SelectCount tn)).
Proof.
  intros Hp. unfold parse_sql, tokenize, lex, total_rows_sql.
  lex_piece. lex_last_name Hp. classify_all.
  vm_compute. reflexivity.
Qed.

Lemma parse_table_info_sql tn :
  plain_word tn = true ->
  parse_sql (table_info_sql tn) = Some (PragmaTableInfo tn).
Proof.
  intros Hp. unfold parse_sql, tokenize, lex, table_info_sql.
  lex_piece. lex_name_before_last Hp. lex_last_piece. classify_all.
  vm_compute. reflexivity.
Qed.

Lemma parse_not_null_sql col tn :
  plain_word col = true -> plain_word tn = true ->
  parse_sql (not_null_sql (VText col) tn)
  = Some (Query (Select (ECol col) tn (ENotNull (ECol col)))).
Proof.
  intros Hc Hp. unfold parse_sql, tokenize, lex, not_null_sql. cbn [str].
  lex_piece. lex_name Hc. lex_piece. lex_name Hp. lex_piece.
  lex_name_before_last Hc. lex_last_piece. classify_all.
  vm_compute. reflexivity.
Qed.

End Parsing.

(** ** Frames *)

Lemma same_frame_refl w : same_frame w w.
Proof. by repeat split. Qed.

Lemma same_frame_sym w1 w2 : same_frame w1 w2 -> same_frame w2 w1.
Proof. intros (? & ? & ? & ? & ?). by repeat split. Qed.

Lemma same_frame_trans w1 w2 w3 :
  same_frame w1 w2 -> same_frame w2 w3 -> same_frame w1 w3.
Proof.
  intros (? & ? & ? & ? & ?) (? & ? & ? & ? & ?).
  repeat split; congruence.
Qed.

Lemma same_frame_cursor_conn w1 w2 c :
  same_frame w1 w2 -> cursor_conn w1 c = cursor_conn w2 c.
Proof.
  intros (_ & _ & H & _). unfold cursor_conn.
  by rewrite <- !list_lookup_fmap, H.
Qed.

Lemma same_frame_view w1 w2 cn :
  same_frame w1 w2 -> view w1 cn = view w2 cn.
Proof. intros (H & _). unfold view, stored. by rewrite H. Qed.

Lemma same_frame_issued w l : same_frame w (with_issued l w).
Proof. by repeat split. Qed.

Lemma same_frame_stdout w o : same_frame w (with_stdout o w).
Proof. by repeat split. Qed.

Lemma same_frame_set_rows w c rs : same_frame w (set_rows c rs w).
Proof.
  unfold set_rows. destruct (cursors w !! c) as [co |] eqn:E;
    [| apply same_frame_refl].
  repeat split. cbn. rewrite list_fmap_insert. cbn.
  symmetry. apply list_insert_id. by rewrite list_lookup_fmap, E.
Qed.

Lemma same_frame_cursor_on w1 w2 c k d :
  same_frame w1 w2 -> cursor_on w1 c k d -> cursor_on w2 c k d.
Proof.
  intros Hf (Hc & cn & Hk & Ho & Hv & Hfree). split.
  - by rewrite <- (same_frame_cursor_conn _ _ _ Hf).
  - exists cn. destruct Hf as (Hfiles & Hconns & _).
    unfold contended in *. rewrite <- Hconns. split_and!; try done.
    unfold view, stored in *. by rewrite <- Hfiles.
Qed.

Lemma set_rows_lookup w c co rs :
  cursors w !! c = Some co ->
  cursors (set_rows c rs w) !! c = Some (Cursor (cur_conn co) rs).
Proof.
  intros E. unfold set_rows. rewrite E. cbn.
  apply list_lookup_insert_eq. by eapply lookup_lt_Some.
Qed.

Lemma set_rows_conns w c rs : conns (set_rows c rs w) = conns w.
Proof. unfold set_rows. by destruct (cursors w !! c). Qed.

Lemma set_rows_issued w c rs : issued (set_rows c rs w) = issued w.
Proof. unfold set_rows. by destruct (cursors w !! c). Qed.

Lemma set_rows_stdout w c rs : stdout (set_rows c rs w) = stdout w.
Proof. unfold set_rows. by destruct (cursors w !! c). Qed.

(** ** Who holds a transaction *)

Lemma delete_insert_same {A} (l : list A) i x :
  delete i (<[i := x]> l) = delete i l.
Proof.
  revert i. induction l as [| a l IH]; intros [| i]; try done.
  simpl. f_equal. apply IH.
Qed.

Lemma delete_app_last {A} (l : list A) i x :
  (i < length l)%nat -> delete i (l ++ [x]) = delete i l ++ [x].
Proof.
  revert i. induction l as [| a l IH]; intros [| i] Hi; simpl in *;
    try done; try lia.
  f_equal. apply IH. lia.
Qed.

Lemma contended_conns w1 w2 k file :
  conns w1 = conns w2 -> contended w1 k file = contended w2 k file.
Proof. unfold contended. by intros ->. Qed.

Lemma contended_set_rows w c rs k file :
  contended (set_rows c rs w) k file = contended w k file.
Proof. apply contended_conns, set_rows_conns. Qed.

(** What a connection has pending does not matter to its own
    statements. *)
Lemma contended_set_pending w k d file :
  contended (set_pending k d w) k file = contended w k file.
Proof.
  unfold contended, set_pending. destruct (conns w !! k); [| done].
  cbn [conns with_conns]. by rewrite delete_insert_same.
Qed.

(** A connection that has nothing pending is in nobody's way. *)
Lemma contended_new w k file cn :
  (k < length (conns w))%nat -> conn_pending cn = None ->
  existsb (holds_transaction file) (delete k (conns w ++ [cn]))
  = contended w k file.
Proof.
  intros Hk Hp. unfold contended. rewrite delete_app_last by done.
  rewrite existsb_app. cbn [existsb]. unfold holds_transaction at 2.
  rewrite Hp. by rewrite !andb_false_r, !orb_false_r.
Qed.

(** ** A text that opens with SELECT or PRAGMA is never read as a write *)

Section ReadTexts.
Import Sql.

Lemma starts_with_app p : forall s,
  starts_with p s = true -> exists r, s = p ++ r.
Proof.
  induction p as [| a p IH]; intros s H; [by exists s |].
  destruct s as [| b s]; [discriminate |]. cbn in H.
  apply andb_true_iff in H as [Hab Hp]. apply N.eqb_eq in Hab as ->.
  destruct (IH _ Hp) as [r ->]. by exists r.
Qed.

Lemma flush_grows cur out : exists more, flush cur out = more ++ out.
Proof.
  destruct cur; cbn; [by exists [] |]. by eexists [_].
Qed.

(** The lexer only ever adds to what it has produced. *)
Lemma lex_step_grows m out ch m' out' :
  lex_step (m, out) ch = Some (m', out') -> exists more, out' = more ++ out.
Proof.
  cbn. destruct m as [cur | acc |].
  - destruct (flush_grows cur out) as [mo Hmo].
    repeat case_match; intros; simplify_eq;
      first [ by exists [] | by exists mo | eexists (_ :: mo); by rewrite Hmo ].
  - case_match; intros; simplify_eq; [by eexists [_] | by exists []].
  - case_match; intros; simplify_eq. by eexists [_].
Qed.

Lemma lex_run_grows s : forall m out m' out',
  lex_run (m, out) s = Some (m', out') -> exists more, out' = more ++ out.
Proof.
  induction s as [| ch s IH]; intros m out m' out' H; cbn [lex_run] in H.
  - simplify_eq. by exists [].
  - destruct (lex_step (m, out) ch) as [[m1 out1] |] eqn:E; [| discriminate].
    destruct (lex_step_grows _ _ _ _ _ E) as [mo1 ->].
    destruct (IH _ _ _ _ H) as [mo2 ->].
    exists (mo2 ++ mo1). by rewrite app_assoc.
Qed.

Lemma lex_first_word piece w rest rs :
  lex_run (InCode [], []) piece = Some (InCode [], [RWord w]) ->
  lex (piece ++ rest) = Some rs ->
  exists rs', rs = RWord w :: rs'.
Proof.
  intros Hkw. unfold lex. rewrite lex_run_app, Hkw. cbn [mbind option_bind].
  destruct (lex_run (InCode [], [RWord w]) rest) as [[m out] |] eqn:E;
    [| discriminate].
  destruct (lex_run_grows _ _ _ _ _ E) as [more ->].
  cbn [mbind option_bind]. destruct m as [cur | |]; cbn [lex_end]; try discriminate.
  intros [= <-]. destruct (flush_grows cur (more ++ [RWord w])) as [mo ->].
  rewrite !rev_app_distr. cbn [rev app]. by eexists.
Qed.

Lemma tokenize_first piece w k rest ts :
  lex_run (InCode [], []) piece = Some (InCode [], [RWord w]) ->
  classify (RWord w) = Some (TKw k) ->
  tokenize (piece ++ rest) = Some ts ->
  exists ts', ts = TKw k :: ts'.
Proof.
  intros Hkw Hk. unfold tokenize.
  destruct (lex (piece ++ rest)) as [rs |] eqn:E; [| discriminate].
  destruct (lex_first_word _ _ _ _ Hkw E) as [rs' ->].
  cbn [mbind option_bind mapM]. rewrite Hk. cbn [mbind option_bind].
  destruct (mapM classify rs'); [| discriminate].
  cbn. intros [= <-]. by eexists.
Qed.

Lemma read_text_reads sql st :
  read_text sql = true -> parse_sql sql = Some st -> writes st = false.
Proof.
  unfold read_text, parse_sql. intros Hr Hp.
  destruct (tokenize sql) as [ts |] eqn:Et; [| discriminate].
  cbn [mbind option_bind] in Hp.
  apply orb_true_iff in Hr as [Hr | Hr];
    apply starts_with_app in Hr as [r ->].
  - apply (tokenize_first _ (lit "SELECT") K_SELECT) in Et as [ts' ->];
      [| by vm_compute | by vm_compute].
    cbn [parse_tokens] in Hp. destruct (parse_select ts'); cbn in Hp; by simplify_eq.
  - apply (tokenize_first _ (lit "PRAGMA") K_PRAGMA) in Et as [ts' ->];
      [| by vm_compute | by vm_compute].
    cbn [parse_tokens] in Hp. destruct (parse_pragma ts'); cbn in Hp; by simplify_eq.
Qed.

Lemma run_read_unchanged today d st d' :
  writes st = false -> run today d st <> Changed d'.
Proof.
  destruct st as [[tn | proj tn cond] | tn |]; [| | | discriminate];
    intros _; cbn; repeat case_match; discriminate.
Qed.

Lemma answer_read_unchanged w k cn st ps d' :
  writes st = false -> answer w k cn st ps <> Changed d'.
Proof.
  intros Hw. unfold answer.
  pose proof (run_read_unchanged (sql_date (clock w)) (view w cn) st) as Hnc.
  destruct (run (sql_date (clock w)) (view w cn) st) as [rs | d'' | e |].
  - destruct ps, (contended w k (conn_file cn)); rewrite ?Hw; discriminate.
  - by destruct (Hnc d'' Hw).
  - destruct e, ps, (contended w k (conn_file cn)); rewrite ?Hw; discriminate.
  - discriminate.
Qed.

(** With no bound value and no other transaction on the file, the answer
    is the engine's. *)
Lemma answer_free w k cn st :
  contended w k (conn_file cn) = false ->
  answer w k cn st [] = run (sql_date (clock w)) (view w cn) st.
Proof.
  intros Hf. unfold answer. rewrite Hf.
  by destruct (run (sql_date (clock w)) (view w cn) st) as [| | [] |].
Qed.

End ReadTexts.

(** ** Queries *)

Lemma fetchall_after_set_rows w c co cn rs :
  cursors w !! c = Some co -> conns w !! cur_conn co = Some cn ->
  conn_open cn = true ->
  fetchall c (set_rows c rs w) = (Ret rs, set_rows c [] (set_rows c rs w)).
Proof.
  intros Ec Ek Eo. unfold fetchall.
  rewrite (set_rows_lookup _ _ _ _ Ec), set_rows_conns. cbn [cur_conn cur_rows].
  by rewrite Ek, Eo.
Qed.

Lemma query_run c sql w :
  read_text sql = true ->
  fst (query c sql w) = query_outcome w c sql
  /\ same_frame w (snd (query c sql w))
  /\ issued (snd (query c sql w)) = issued w ++ [sql]
  /\ stdout (snd (query c sql w)) = stdout w.
Proof.
  intros Hr. unfold query, bind, execute, query_outcome, cursor_conn.
  set (w' := with_issued (issued w ++ [sql]) w).
  assert (Hf : same_frame w w') by apply same_frame_issued.
  change (cursors w') with (cursors w). change (conns w') with (conns w).
  change (clock w') with (clock w).
  destruct (cursors w !! c) as [co |] eqn:Ec; cbn [fmap option_fmap option_map];
    [| by repeat split].
  destruct (conns w !! cur_conn co) as [cn |] eqn:Ek; [| by repeat split].
  destruct (conn_open cn) eqn:Eo; cbn [negb]; [| by repeat split].
  destruct (parse_sql sql) as [st |] eqn:Ep.
  2:{ destruct (syntax_error sql) as [near |]; [| by repeat split].
      cbn [fst snd]. split; [done |]. split; [| split].
      - eapply same_frame_trans; [exact Hf | apply same_frame_set_rows].
      - by rewrite set_rows_issued.
      - by rewrite set_rows_stdout. }
  cbv zeta. rewrite (read_text_reads _ _ Hr Ep).
  change (view w' cn) with (view w cn).
  change (answer w' (cur_conn co) cn st []) with (answer w (cur_conn co) cn st []).
  pose proof (answer_read_unchanged w (cur_conn co) cn st []) as Hnc.
  specialize (fun d' => Hnc d' (read_text_reads _ _ Hr Ep)).
  assert (Ec' : cursors w' !! c = Some co) by done.
  assert (Ek' : conns w' !! cur_conn co = Some cn) by done.
  destruct (answer w (cur_conn co) cn st []) as [rs | d' | e |] eqn:Er.
  - pose proof (set_rows_lookup w' c co [] Ec') as E1. cbn [cur_conn] in E1.
    rewrite (fetchall_after_set_rows _ _ (Cursor (cur_conn co) []) cn rs E1);
      [| by rewrite set_rows_conns | done].
    cbn [fst snd]. split; [done |]. split; [| split].
    + eapply same_frame_trans; [exact Hf |].
      eapply same_frame_trans; [apply same_frame_set_rows |].
      eapply same_frame_trans; apply same_frame_set_rows.
    + by rewrite !set_rows_issued.
    + by rewrite !set_rows_stdout.
  - by destruct (Hnc d').
  - destruct e; cbn [fst snd]; (split; [done |]); (split; [| split]);
      first [ by rewrite set_rows_issued
            | by rewrite set_rows_stdout
            | eapply same_frame_trans; [exact Hf | apply same_frame_set_rows] ].
  - by repeat split.
Qed.

Lemma query_outcome_frame w1 w2 c sql :
  same_frame w1 w2 -> query_outcome w1 c sql = query_outcome w2 c sql.
Proof.
  intros Hf. unfold query_outcome.
  rewrite (same_frame_cursor_conn _ _ c Hf).
  destruct Hf as (Hfiles & Hconns & _ & _ & Hclock).
  unfold answer, contended, view, stored. by rewrite Hconns, Hclock, Hfiles.
Qed.

(** ** Composing computations that only read *)

Lemma quiet_ret {A} (a : A) : quiet (ret a).
Proof.
  intros w1 w2 Hf. cbn. split; [done |]. split; [apply same_frame_refl |].
  exists []. by rewrite app_nil_r.
Qed.

Lemma quiet_raise {A} e : quiet (@raise A e).
Proof.
  intros w1 w2 Hf. cbn. split; [done |]. split; [apply same_frame_refl |].
  exists []. by rewrite app_nil_r.
Qed.

Lemma quiet_print p : quiet (print p).
Proof.
  intros w1 w2 Hf. cbn. split; [done |]. split; [apply same_frame_stdout |].
  exists []. by rewrite app_nil_r.
Qed.

Lemma quiet_index {A} (xs : list A) i : quiet (index xs i).
Proof. unfold index. destruct (xs !! i); [apply quiet_ret | apply quiet_raise]. Qed.

Lemma quiet_read_global_c : quiet read_global_c.
Proof.
  intros w1 w2 Hf. unfold read_global_c.
  destruct Hf as (_ & _ & _ & Hc & _). rewrite <- Hc.
  destruct (global_c w1); cbn; (split; [done |]);
    (split; [apply same_frame_refl |]); exists []; by rewrite app_nil_r.
Qed.

Lemma quiet_bind {A B} (m : py A) (k : A -> py B) :
  quiet m -> (forall a, quiet (k a)) -> quiet (bind m k).
Proof.
  intros Hm Hk w1 w2 Hf. unfold bind.
  destruct (Hm w1 w2 Hf) as (Ho & Hf1 & l1 & Hl1 & HP1).
  destruct (Hm w2 w1 (same_frame_sym _ _ Hf)) as (_ & Hf2 & _).
  destruct (m w1) as [o1 w1'], (m w2) as [o2 w2']. cbn [fst snd] in *. subst o2.
  destruct o1 as [a | e |].
  - assert (Hf' : same_frame w1' w2').
    { eapply same_frame_trans; [apply same_frame_sym, Hf1 |].
      eapply same_frame_trans; [exact Hf | exact Hf2]. }
    destruct (Hk a w1' w2' Hf') as (Ho' & Hf1' & l2 & Hl2 & HP2).
    split; [done |]. split; [by eapply same_frame_trans |].
    exists (l1 ++ l2). rewrite Hl2, Hl1, app_assoc. split; [done |].
    by apply Forall_app.
  - cbn. split; [done |]. split; [done |]. by exists l1.
  - cbn. split; [done |]. split; [done |]. by exists l1.
Qed.

Lemma quiet_for_each {A S} (xs : list A) (body : A -> S -> py S) :
  (forall x s, quiet (body x s)) -> forall acc, quiet (for_each xs body acc).
Proof.
  intros Hb. induction xs as [| x xs IH]; intros acc; cbn [for_each].
  - apply quiet_ret.
  - apply quiet_bind; [apply Hb | exact IH].
Qed.

Lemma quiet_ext {A} (m m' : py A) :
  (forall w, m w = m' w) -> quiet m -> quiet m'.
Proof. intros He Hm w1 w2 Hf. rewrite <- !He. by apply Hm. Qed.

Lemma quiet_query c sql : read_text sql = true -> quiet (query c sql).
Proof.
  intros Hr w1 w2 Hf.
  destruct (query_run c sql w1 Hr) as (Ho1 & Hf1 & Hi1 & _).
  destruct (query_run c sql w2 Hr) as (Ho2 & _ & _).
  rewrite Ho1, Ho2. split; [by apply query_outcome_frame |].
  split; [done |]. exists [sql]. split; [done |]. by constructor.
Qed.

(** Sequencing is associative, so [execute ;; fetchall ;; rest] is
    [query ;; rest]. *)
Lemma bind_query {B} c sql (k : list row -> py B) w :
  (execute c sql [] ;; rs <- fetchall c ;; k rs) w
  = (rs <- query c sql ;; k rs) w.
Proof.
  unfold query, bind. by destruct (execute c sql [] w) as [[[] | e |] w'].
Qed.

Lemma quiet_query_bind {B} c sql (k : list row -> py B) :
  read_text sql = true -> (forall rs, quiet (k rs)) ->
  quiet (execute c sql [] ;; rs <- fetchall c ;; k rs).
Proof.
  intros Hr Hk. eapply quiet_ext; [intros w; symmetry; apply bind_query |].
  apply quiet_bind; [by apply quiet_query | exact Hk].
Qed.

(** ** The summary functions only read *)

Lemma read_text_total_rows tn : read_text (total_rows_sql tn) = true.
Proof. reflexivity. Qed.

Lemma read_text_table_info tn : read_text (table_info_sql tn) = true.
Proof. reflexivity. Qed.

Lemma read_text_not_null col tn : read_text (not_null_sql col tn) = true.
Proof. reflexivity. Qed.

Ltac quiet_step :=
  first
    [ apply quiet_ret
    | apply quiet_print
    | apply quiet_index
    | apply quiet_read_global_c
    | apply quiet_query_bind;
      [ first [ apply read_text_total_rows | apply read_text_table_info
              | apply read_text_not_null ]
      | intros ]
    | apply quiet_for_each; intros
    | apply quiet_bind; [| intros] ].

Lemma quiet_total_rows cursor tn b : quiet (total_rows cursor tn b).
Proof. unfold total_rows. destruct b; repeat quiet_step. Qed.

Lemma quiet_table_col_info cursor tn b : quiet (table_col_info cursor tn b).
Proof. unfold table_col_info. destruct b; repeat quiet_step. Qed.

Lemma quiet_values_in_col cursor tn b : quiet (values_in_col cursor tn b).
Proof. unfold values_in_col. destruct b; repeat quiet_step. Qed.

Lemma quiet_report cursor tn : quiet (report cursor tn).
Proof.
  unfold report.
  apply quiet_bind; [apply quiet_total_rows | intros].
  apply quiet_bind; [apply quiet_table_col_info | intros].
  apply quiet_bind; [apply quiet_values_in_col | intros].
  apply quiet_ret.
Qed.

(** ** What the summary functions return *)

Lemma yields_bind {A B} (m : py A) (k : A -> py B) w a b :
  yields m w a -> yields (k a) (snd (m w)) b -> yields (bind m k) w b.
Proof.
  unfold yields, bind. destruct (m w) as [o w']. cbn. by intros ->.
Qed.

Lemma yields_ext {A} (m m' : py A) w a :
  m w = m' w -> yields m w a -> yields m' w a.
Proof. unfold yields. by intros ->. Qed.

Lemma quiet_same_frame {A} (m : py A) w : quiet m -> same_frame w (snd (m w)).
Proof. intros Hq. by destruct (Hq w w (same_frame_refl w)) as (_ & ? & _). Qed.

Lemma query_outcome_on w c k d sql st :
  cursor_on w c k d -> parse_sql sql = Some st ->
  query_outcome w c sql
  = match run (sql_date (clock w)) d st with
    | Rows rs => Ret rs
    | Changed _ => Ret []
    | Failed e => Raise e
    | OutOfModel => NotModelled
    end.
Proof.
  intros (Hc & cn & Hk & Ho & Hv & Hfree) Hp. unfold query_outcome.
  by rewrite Hc, Hk, Ho, Hp, (answer_free _ _ _ _ Hfree), Hv.
Qed.

Lemma plain_table_not_internal tn :
  plain_table_name tn = true -> internal_name tn = false.
Proof.
  unfold plain_table_name. intros H. apply andb_true_iff in H as [_ H].
  by apply negb_true_iff.
Qed.

Lemma query_total_rows w c k d tn t :
  cursor_on w c k d -> plain_table_name tn = true ->
  find_table d tn = Some t ->
  yields (query c (total_rows_sql tn)) w
         [[VInt (Z.of_nat (length (tbl_rows t)))]].
Proof.
  intros Hon Hp Ht. unfold yields.
  destruct (query_run c (total_rows_sql tn) w (read_text_total_rows tn))
    as (-> & _).
  rewrite (query_outcome_on _ _ _ _ _ _ Hon
             (parse_total_rows_sql _ (plain_table_word _ Hp))).
  cbn [run run_query]. by rewrite (plain_table_not_internal _ Hp), Ht.
Qed.


Lemma total_rows_yields w c k d tn t b :
  cursor_on w c k d -> plain_table_name tn = true ->
  find_table d tn = Some t ->
  yields (total_rows c tn b) w (VInt (Z.of_nat (length (tbl_rows t)))).
Proof.
  intros Hon Hp Ht. unfold total_rows.
  eapply yields_ext; [symmetry; apply bind_query |].
  eapply yields_bind; [by eapply query_total_rows |].
  by destruct b.
Qed.


Lemma query_table_info w c k d tn t :
  cursor_on w c k d -> plain_table_name tn = true ->
  find_table d tn = Some t ->
  yields (query c (table_info_sql tn)) w (table_info t).
Proof.
  intros Hon Hp Ht. unfold yields.
  destruct (query_run c (table_info_sql tn) w (read_text_table_info tn))
    as (-> & _).
  rewrite (query_outcome_on _ _ _ _ _ _ Hon
             (parse_table_info_sql _ (plain_table_word _ Hp))).
  cbn [run]. by rewrite (plain_table_not_internal _ Hp), Ht.
Qed.

Lemma for_each_print_yields {A} (xs : list A) (f : A -> printed) : forall w,
  yields (for_each xs (fun x _ => print (f x)) tt) w tt.
Proof.
  induction xs as [| x xs IH]; intros w; [done |].
  cbn [for_each]. eapply yields_bind; [done | apply IH].
Qed.

Lemma table_col_info_yields w c k d tn t b :
  cursor_on w c k d -> plain_table_name tn = true ->
  find_table d tn = Some t ->
  yields (table_col_info c tn b) w (table_info t).
Proof.
  intros Hon Hp Ht. unfold table_col_info.
  eapply yields_ext; [symmetry; apply bind_query |].
  eapply yields_bind; [by eapply query_table_info |].
  destruct b; [| done].
  eapply yields_bind; [| done].
  eapply yields_bind; [done |]. apply for_each_print_yields.
Qed.

(** *** Dictionaries *)

Lemma dict_set_fresh k v (d : pydict) :
  k ∉ d.*1 -> dict_set k v d = d ++ [(k, v)].
Proof.
  induction d as [| [k' v'] d IH]; intros Hk; [done |].
  cbn [dict_set]. rewrite fmap_cons in Hk. apply not_elem_of_cons in Hk as [Hne Hk].
  cbn in Hne. rewrite bool_decide_eq_false_2 by congruence.
  by rewrite (IH Hk).
Qed.

Lemma dict_set_app_skip k v v0 (pre post : pydict) :
  k ∉ pre.*1 ->
  dict_set k v (pre ++ (k, v0) :: post) = pre ++ (k, v) :: post.
Proof.
  induction pre as [| [k' v'] pre IH]; intros Hk; cbn [app dict_set].
  - by rewrite bool_decide_eq_true_2.
  - rewrite fmap_cons in Hk. apply not_elem_of_cons in Hk as [Hne Hk].
    cbn in Hne. rewrite bool_decide_eq_false_2 by congruence.
    by rewrite (IH Hk).
Qed.

Section DictFolds.
Context {P : Type} (key : P -> value) (cnt : P -> value).

(** The first loop: every key enters the dictionary with 0. *)
Lemma fold_zero (todo : list P) : forall pre : pydict,
  NoDup (pre.*1 ++ (key <$> todo)) ->
  fold_left (fun d p => dict_set (key p) (VInt 0) d) todo pre
  = pre ++ ((fun p => (key p, VInt 0)) <$> todo).
Proof.
  induction todo as [| p todo IH]; intros pre Hnd; cbn [fold_left fmap list_fmap].
  - by rewrite app_nil_r.
  - rewrite dict_set_fresh.
    + rewrite IH; [by rewrite <- app_assoc |].
      rewrite fmap_app, <- app_assoc. exact Hnd.
    + apply NoDup_app in Hnd as (_ & Hd & _). intros Hin.
      apply (Hd _ Hin). rewrite fmap_cons. apply list_elem_of_here.
Qed.

(** The second loop: every key gets its count, in place. *)
Lemma fold_counts (todo : list P) : forall pre : pydict,
  NoDup (pre.*1 ++ (key <$> todo)) ->
  fold_left (fun d p => dict_set (key p) (cnt p) d) todo
            (pre ++ ((fun p => (key p, VInt 0)) <$> todo))
  = pre ++ ((fun p => (key p, cnt p)) <$> todo).
Proof.
  induction todo as [| p todo IH]; intros pre Hnd; cbn [fold_left fmap list_fmap];
    [done |].
  rewrite dict_set_app_skip.
  - rewrite (cons_middle _ pre), app_assoc, IH; [by rewrite <- app_assoc |].
    rewrite fmap_app, <- app_assoc. exact Hnd.
  - apply NoDup_app in Hnd as (_ & Hd & _). intros Hin.
    apply (Hd _ Hin). rewrite fmap_cons. apply list_elem_of_here.
Qed.

End DictFolds.

(** *** Loops *)

(** A loop whose body, on every element, returns a function of the
    accumulator and keeps an invariant of the world, is a fold. *)
Lemma for_each_fold {A' A S} (f : A' -> A) (ys : list A')
    (body : A -> S -> py S) (step : S -> A' -> S) (I : world -> Prop) :
  (forall y s w, y ∈ ys -> I w ->
     yields (body (f y) s) w (step s y) /\ I (snd (body (f y) s w))) ->
  forall s w, I w ->
    yields (for_each (f <$> ys) body s) w (fold_left step ys s)
    /\ I (snd (for_each (f <$> ys) body s w)).
Proof.
  induction ys as [| y ys IH]; intros Hb s w Hw; [done |].
  cbn [fmap list_fmap for_each fold_left].
  destruct (Hb y s w (list_elem_of_here _ _) Hw) as [Hy HI].
  destruct (IH (fun y' s' w' Hin => Hb y' s' w' (list_elem_of_further _ _ _ Hin))
              (step s y) _ HI) as [Hr HI'].
  unfold yields in *. unfold bind. destruct (body (f y) s w) as [o w'].
  cbn [fst snd] in *. by subst o.
Qed.

(** *** Columns by number *)

Lemma imap_numbered {B} (g : nat -> column -> B) cols : forall i,
  imap (fun j => g (i + j)%nat) cols = (fun p => g (fst p) (snd p)) <$> numbered i cols.
Proof.
  induction cols as [| c cols IH]; intros i; [done |].
  cbn [imap numbered fmap list_fmap fst snd]. rewrite Nat.add_0_r. f_equal.
  rewrite <- (IH (S i)). apply imap_ext. intros j x _. cbn. f_equal. lia.
Qed.

Lemma table_info_numbered t :
  table_info t = (fun p => descriptor (fst p) (snd p)) <$> numbered 0 (tbl_cols t).
Proof. unfold table_info. by rewrite <- (imap_numbered descriptor _ 0). Qed.

Lemma numbered_lookup cols : forall i j c,
  (j, c) ∈ numbered i cols -> exists n, j = (i + n)%nat /\ cols !! n = Some c.
Proof.
  induction cols as [| c0 cols IH]; intros i j c Hin; cbn [numbered] in Hin.
  - by apply elem_of_nil in Hin.
  - apply elem_of_cons in Hin as [[= -> ->] | Hin].
    + exists 0%nat. split; [lia | done].
    + destruct (IH _ _ _ Hin) as (n & -> & Hn). exists (S n). split; [lia | done].
Qed.

Lemma numbered_snd cols : forall i, (numbered i cols).*2 = cols.
Proof.
  induction cols as [| c cols IH]; intros i; [done |].
  cbn [numbered fmap list_fmap snd]. by rewrite IH.
Qed.

Lemma find_col_distinct cols : forall i c,
  NoDup (upper <$> (col_name <$> cols)) -> cols !! i = Some c ->
  find_col cols (col_name c) = Some i.
Proof.
  induction cols as [| c0 cols IH]; intros i c Hnd Hi; [done |].
  rewrite !fmap_cons in Hnd. apply NoDup_cons in Hnd as [Hnot Hnd].
  cbn [find_col]. destruct i as [| i]; cbn in Hi.
  - simplify_eq. unfold same_name, pystr_eqb. by rewrite bool_decide_eq_true_2.
  - unfold same_name, pystr_eqb. rewrite bool_decide_eq_false_2.
    + by rewrite (IH _ _ Hnd Hi).
    + intros Heq. apply Hnot. rewrite Heq.
      apply list_elem_of_fmap_2, list_elem_of_fmap_2.
      by eapply list_elem_of_lookup_2.
Qed.

(** *** The per-column query *)

Lemma find_col_lt cols : forall cn i,
  find_col cols cn = Some i -> (i < length cols)%nat.
Proof.
  induction cols as [| c cols IH]; intros cn i H; [done |].
  cbn [find_col] in H. destruct (same_name (col_name c) cn).
  - simplify_eq. cbn. lia.
  - destruct (find_col cols cn) as [j |] eqn:E; [| done].
    cbn in H. simplify_eq. specialize (IH _ _ E). cbn. lia.
Qed.

Lemma select_not_null today t col i :
  find_col (tbl_cols t) col = Some i ->
  Forall (fun r : row => length r = length (tbl_cols t)) (tbl_rows t) ->
  exists rs, select_rows today t (ECol col) (ENotNull (ECol col)) = Some rs
             /\ length rs = non_null_count t i.
Proof.
  intros Hi Hrows. pose proof (find_col_lt _ _ _ Hi) as Hlt.
  unfold select_rows, non_null_count.
  set (f := fun r : row => _).
  assert (Hf : forall r : row, length r = length (tbl_cols t) ->
            exists v, r !! i = Some v
                      /\ f r = Some (if bool_decide (v = VNull) then []
                                     else [[v]])).
  { intros r Hr. destruct (lookup_lt_is_Some_2 r i) as [v Hv]; [lia |].
    exists v. split; [done |]. unfold f, passes. cbn [eval]. rewrite Hi.
    cbn [mbind option_bind]. rewrite Hv. cbn [mbind option_bind].
    by case_bool_decide. }
  clearbody f.
  induction Hrows as [| r rows Hr _ IH]; [by exists [] |].
  destruct IH as (rs & Hrs & Hlen).
  destruct (mapM f rows) as [rss |] eqn:E; [| done]. cbn in Hrs. simplify_eq.
  destruct (Hf r Hr) as (v & Hv & Hfr).
  cbn [mapM List.filter]. rewrite Hfr, E, Hv.
  cbn [mbind option_bind mret option_ret fmap option_fmap option_map].
  eexists. split; [done |]. cbn [List.concat].
  destruct (decide (v = VNull)) as [-> | Hne].
  - rewrite !bool_decide_eq_true_2 by done. by cbn.
  - rewrite (bool_decide_eq_false_2 (v = VNull)) by done.
    rewrite bool_decide_eq_false_2 by congruence. cbn. by rewrite Hlen.
Qed.

Lemma wf_table_parts t :
  wf_table t = true ->
  Forall (fun c => plain_word (col_name c) = true) (tbl_cols t)
  /\ NoDup (upper <$> (col_name <$> tbl_cols t))
  /\ Forall (fun r : row => length r = length (tbl_cols t)) (tbl_rows t).
Proof.
  unfold wf_table, distinct_names. intros H.
  apply andb_true_iff in H as [H H3]. apply andb_true_iff in H as [H1 H2].
  split; [| split].
  - apply Forall_forall. intros c Hc. rewrite forallb_forall in H1.
    apply H1. by apply list_elem_of_In.
  - by apply bool_decide_eq_true in H2.
  - apply Forall_forall. intros r Hr. rewrite forallb_forall in H3.
    apply Nat.eqb_eq, H3. by apply list_elem_of_In.
Qed.

Lemma query_not_null w c k d tn t i col :
  cursor_on w c k d -> plain_table_name tn = true ->
  find_table d tn = Some t -> wf_table t = true ->
  tbl_cols t !! i = Some col ->
  exists rs, yields (query c (not_null_sql (VText (col_name col)) tn)) w rs
             /\ length rs = non_null_count t i.
Proof.
  intros Hon Hp Ht Hwf Hi.
  destruct (wf_table_parts _ Hwf) as (Hplain & Hnd & Hrows).
  assert (Hpc : plain_word (col_name col) = true).
  { rewrite Forall_forall in Hplain. apply Hplain.
    by eapply list_elem_of_lookup_2. }
  pose proof (find_col_distinct _ _ _ Hnd Hi) as Hfc.
  destruct (select_not_null (sql_date (clock w)) t (col_name col) i Hfc Hrows)
    as (rs & Hrs & Hlen).
  exists rs. split; [| done]. unfold yields.
  destruct (query_run c (not_null_sql (VText (col_name col)) tn) w
              (read_text_not_null _ tn)) as (-> & _).
  rewrite (query_outcome_on _ _ _ _ _ _ Hon
             (parse_not_null_sql _ _ Hpc (plain_table_word _ Hp))).
  cbn [run run_query]. rewrite (plain_table_not_internal _ Hp), Ht.
  unfold missing_col. cbn [expr_cols app List.find]. rewrite Hfc.
  rewrite bool_decide_eq_false_2 by done. by rewrite Hrs.
Qed.

Lemma ready_frame w w' c k d :
  same_frame w w' -> ready w c k d -> ready w' c k d.
Proof.
  intros Hf [Hon Hg]. split; [by eapply same_frame_cursor_on |].
  destruct Hf as (_ & _ & _ & Hc & _). by rewrite <- Hc.
Qed.

Lemma read_global_c_run w c : global_c w = Some c -> read_global_c w = (Ret c, w).
Proof. unfold read_global_c. by intros ->. Qed.

Lemma keys_distinct cols :
  NoDup (upper <$> (col_name <$> cols)) ->
  NoDup ((fun p : nat * column => VText (col_name (snd p))) <$> numbered 0 cols).
Proof.
  intros Hnd. apply NoDup_fmap_1 in Hnd.
  rewrite <- (numbered_snd cols 0), <- list_fmap_compose in Hnd.
  replace (fun p : nat * column => VText (col_name (snd p)))
    with (VText ∘ (col_name ∘ snd) : nat * column -> value) by done.
  rewrite list_fmap_compose. apply NoDup_fmap_2; [| done].
  by intros ?? [=].
Qed.

(** One turn of the second loop of [values_in_col]. *)
Lemma count_column_step w c k d tn t j col (dct : pydict) :
  ready w c k d -> plain_table_name tn = true ->
  find_table d tn = Some t -> wf_table t = true ->
  tbl_cols t !! j = Some col ->
  let body :=
    (c' <- read_global_c ;;
     execute c' (not_null_sql (VText (col_name col)) tn) [] ;;
     rows <- fetchall c' ;;
     ret (dict_set (VText (col_name col))
                   (VInt (Z.of_nat (length rows))) dct)) in
  yields body w (dict_set (VText (col_name col))
                          (VInt (Z.of_nat (non_null_count t j))) dct)
  /\ ready (snd (body w)) c k d.
Proof.
  intros Hr Hp Ht Hwf Hj body. split.
  - destruct Hr as [Hon Hg]. unfold body.
    eapply yields_bind; [unfold yields; by rewrite (read_global_c_run _ _ Hg) |].
    rewrite (read_global_c_run _ _ Hg). cbn [snd].
    eapply yields_ext; [symmetry; apply bind_query |].
    destruct (query_not_null _ _ _ _ _ _ _ _ Hon Hp Ht Hwf Hj) as (rs & Hy & Hlen).
    eapply yields_bind; [exact Hy |]. unfold yields. cbn. by rewrite Hlen.
  - eapply ready_frame; [| exact Hr]. apply quiet_same_frame.
    unfold body. repeat quiet_step.
Qed.

Lemma values_in_col_yields w c k d tn t b :
  ready w c k d -> plain_table_name tn = true ->
  find_table d tn = Some t -> wf_table t = true ->
  yields (values_in_col c tn b) w (column_counts t).
Proof.
  intros Hr Hp Ht Hwf. pose proof Hr as [Hon Hg].
  destruct (wf_table_parts _ Hwf) as (_ & Hnd & _).
  pose proof (keys_distinct _ Hnd) as Hkeys.
  unfold values_in_col.
  eapply yields_ext; [symmetry; apply bind_query |].
  eapply yields_bind; [by eapply query_table_info |].
  set (w1 := snd (query c (table_info_sql tn) w)).
  assert (Hr1 : ready w1 c k d).
  { eapply ready_frame; [| exact Hr].
    apply quiet_same_frame, quiet_query, read_text_table_info. }
  clearbody w1. rewrite table_info_numbered.
  (* first loop *)
  match goal with
  | |- yields (bind (for_each _ ?body ?acc0) _) _ _ =>
      destruct (for_each_fold
                  (fun p : nat * column => descriptor (fst p) (snd p))
                  (numbered 0 (tbl_cols t)) body
                  (fun dct p => dict_set (VText (col_name (snd p))) (VInt 0) dct)
                  (fun w' => w' = w1)) with (s := acc0) (w := w1)
        as [Hy1 Hw1]
  end.
  { intros y dct w' _ ->. by split. }
  { done. }
  eapply yields_bind; [exact Hy1 |]. rewrite Hw1. clear Hy1 Hw1.
  rewrite (fold_zero (fun p : nat * column => VText (col_name (snd p)))
             _ []) by exact Hkeys.
  cbn [app]. unfold dict_keys.
  change (List.map fst ?l) with (l.*1). rewrite <- list_fmap_compose.
  (* second loop *)
  match goal with
  | |- yields (bind (for_each _ ?body ?acc0) _) _ _ =>
      destruct (for_each_fold
                  (fst ∘ (fun p : nat * column =>
                            (VText (col_name (snd p)), VInt 0)))
                  (numbered 0 (tbl_cols t)) body
                  (fun dct p => dict_set (VText (col_name (snd p)))
                                  (VInt (Z.of_nat (non_null_count t (fst p))))
                                  dct)
                  (fun w' => ready w' c k d)) with (s := acc0) (w := w1)
        as [Hy2 Hr2]
  end.
  { intros [j col] dct w' Hin Hw'.
    destruct (numbered_lookup _ _ _ _ Hin) as (n & -> & Hn).
    by apply count_column_step. }
  { exact Hr1. }
  eapply yields_bind; [exact Hy2 |]. clear Hy2.
  pose proof (fold_counts (fun p : nat * column => VText (col_name (snd p)))
                (fun p => VInt (Z.of_nat (non_null_count t (fst p))))
                (numbered 0 (tbl_cols t)) [] Hkeys) as Hfc.
  cbn [app] in Hfc. rewrite Hfc. clear Hfc.
  eapply yields_bind; [| done].
  destruct b; [| done].
  eapply yields_bind; [done |]. apply for_each_print_yields.
Qed.

Lemma report_yields w c k d tn t :
  ready w c k d -> plain_table_name tn = true ->
  find_table d tn = Some t -> wf_table t = true ->
  yields (report c tn) w
         (VInt (Z.of_nat (length (tbl_rows t))), table_info t, column_counts t).
Proof.
  intros Hr Hp Ht Hwf. unfold report.
  eapply yields_bind; [eapply total_rows_yields; [apply Hr | done | done] |].
  pose proof (ready_frame _ _ _ _ _
                (quiet_same_frame _ w (quiet_total_rows c tn true)) Hr) as Hr1.
  eapply yields_bind; [eapply table_col_info_yields; [apply Hr1 | done | done] |].
  pose proof (ready_frame _ _ _ _ _
                (quiet_same_frame _ _ (quiet_table_col_info c tn true)) Hr1)
    as Hr2.
  eapply yields_bind; [by eapply values_in_col_yields |].
  done.
Qed.

(** ** A missing table *)


(** ** The INSERT of the notebook *)

Section Inserting.
Import Sql.

Lemma parse_insert_statement tn idf cn :
  plain_word tn = true -> plain_word idf = true -> plain_word cn = true ->
  parse_sql (fst (insert_statement tn idf cn))
  = Some (Insert false tn [idf; cn] [VInt 123456; VText (lit "test")]).
Proof.
  intros Ht Hi Hc. unfold parse_sql, tokenize, lex, insert_statement. cbn [fst].
  lex_piece. lex_name Ht. lex_piece. lex_name Hi. lex_piece.
  lex_name_before_last Hc. lex_last_piece. classify_all.
  vm_compute. reflexivity.
Qed.

Lemma parse_insert_or_ignore_statement tn idf cn :
  plain_word tn = true -> plain_word idf = true -> plain_word cn = true ->
  parse_sql (fst (insert_or_ignore_statement tn idf cn))
  = Some (Insert true tn [idf; cn] [VInt 123456; VText (lit "test")]).
Proof.
  intros Ht Hi Hc.
  unfold parse_sql, tokenize, lex, insert_or_ignore_statement. cbn [fst].
  lex_piece. lex_name Ht. lex_piece. lex_name Hi. lex_piece.
  lex_name_before_last Hc. lex_last_piece. classify_all.
  vm_compute. reflexivity.
Qed.

End Inserting.




(** * The claims *)

(** ** C1: the sanitiser *)

Lemma filter_fixed_all {A} (f : A -> bool) (l : list A) :
  List.filter f l = l -> Forall (fun x => f x = true) l.
Proof.
  induction l as [| x l IH]; intros H; [constructor |].
  cbn [List.filter] in H. destruct (f x) eqn:E.
  - injection H as H. constructor; [done | by apply IH].
  - exfalso. pose proof (List.filter_length_le f l) as Hle.
    rewrite H in Hle. cbn in Hle. lia.
Qed.

Lemma filter_all_fixed {A} (f : A -> bool) (l : list A) :
  Forall (fun x => f x = true) l -> List.filter f l = l.
Proof.
  induction 1 as [| x l Hx _ IH]; [done |].
  cbn [List.filter]. by rewrite Hx, IH.
Qed.

Lemma filter_sublist {A} (f : A -> bool) (l : list A) :
  sublist (List.filter f l) l.
Proof.
  induction l as [| x l IH]; [constructor |].
  cbn [List.filter]. destruct (f x); by constructor.
Qed.

(** C1, counterexample.  [clean_name] is not the validator of the claim:
    a name that matches the identifier grammar ([my_table_1], a table
    name of the notebook itself) comes back altered, and a text that
    violates the grammar (scenario C of the specification) is not refused
    but comes back as a name. *)
Lemma clean_name_is_not_validate :
  (validate_spec (lit "my_table_1") = Some (lit "my_table_1")
   /\ forall ua, clean_name ua (lit "my_table_1") = lit "mytable1")
  /\ (validate_spec (lit "robert'); DROP TABLE students;--") = None
      /\ forall ua, clean_name ua (lit "robert'); DROP TABLE students;--")
                    = lit "robertDROPTABLEstudents").
Proof.
  split_and!; try (intros ua); vm_compute; reflexivity.
Qed.

Lemma filter_count_occ (f : pychar -> bool) (l : pystr) (ch : pychar) :
  f ch = true ->
  count_occ N.eq_dec (List.filter f l) ch = count_occ N.eq_dec l ch.
Proof.
  intros Hf. induction l as [| x l IH]; [done |].
  cbn [List.filter]. destruct (f x) eqn:E.
  - cbn [count_occ]. destruct (N.eq_dec x ch); by rewrite IH.
  - cbn [count_occ]. destruct (N.eq_dec x ch) as [-> | _]; [congruence | done].
Qed.

(** C1, amended.  [clean_name] never fails and never refuses: for every
    string it returns the alphanumeric characters of the input, in their
    order, each as often as it occurs in the input, and nothing else; it
    returns the input itself exactly when all its characters are
    alphanumeric.  (A subsequence of the input that holds alphanumeric
    characters only, and each of them as often as the input does, is the
    input with every other character taken out.) *)
Theorem clean_name_keeps_alnum (ua : pychar -> bool) (s : pystr) :
  sublist (clean_name ua s) s
  /\ Forall (fun ch => isalnum ua ch = true) (clean_name ua s)
  /\ (forall ch, isalnum ua ch = true ->
        count_occ N.eq_dec (clean_name ua s) ch = count_occ N.eq_dec s ch)
  /\ (forall ch, ch ∈ s -> isalnum ua ch = true -> ch ∈ clean_name ua s)
  /\ (clean_name ua s = s <-> Forall (fun ch => isalnum ua ch = true) s).
Proof.
  unfold clean_name. split; [apply filter_sublist |]. split; [| split; [| split]].
  - apply Forall_forall. intros ch Hin.
    apply list_elem_of_In, filter_In in Hin. tauto.
  - intros ch Hal. by apply filter_count_occ.
  - intros ch Hin Hal. apply list_elem_of_In, filter_In.
    split; [by apply list_elem_of_In | done].
  - split; [apply filter_fixed_all | apply filter_all_fixed].
Qed.

(** ** C2: values in statement texts *)

(** C2.  The statement of query 5 carries its value in the text and binds
    nothing: whatever [my_id] is, its text ends the statement, and no value
    is passed along.  With the notebook's own [some_id = 123456] the text
    has no placeholder for its one value; with a string for [my_id] the
    value becomes SQL.  The rendering of the same query in the cell
    "Security and injection attacks" has one placeholder and one bound
    value. *)
Theorem select_by_id_embeds_value :
  let tn := lit "my_table_2" in
  let idf := lit "my_1st_column" in
  (forall t i v, snd (select_by_id_statement t i v) = []
                 /\ exists pre, fst (select_by_id_statement t i v) = pre ++ str v)
  /\ select_by_id_statement tn idf (VInt 123456)
     = (lit "SELECT * FROM my_table_2 WHERE my_1st_column=123456", [])
  /\ placeholders (fst (select_by_id_statement tn idf (VInt 123456))) = 0%nat
  /\ select_by_id_statement tn idf (VText (lit "0 OR 1=1"))
     = (lit "SELECT * FROM my_table_2 WHERE my_1st_column=0 OR 1=1", [])
  /\ select_by_id_bound tn idf
     = (lit "SELECT * FROM my_table_2 WHERE my_1st_column=?", [VInt 123456])
  /\ placeholders (fst (select_by_id_bound tn idf))
     = length (snd (select_by_id_bound tn idf)).
Proof.
  cbv zeta. split; [| split_and!; vm_compute; reflexivity].
  intros t i v. split; [done |]. unfold select_by_id_statement. cbn [fst].
  exists (lit "SELECT * FROM " ++ t ++ lit " WHERE " ++ i ++ lit "=").
  by rewrite <- !app_assoc.
Qed.

(** ** C3: what the summary reports *)





(** ** C4: a key that is already there *)




(** ** C5: a table that is not there *)




(** ** C6: twice in a row *)

(** C6.  The reporting calls of [__main__], run a second time on the
    world the first run left, come to what the first run came to: the same
    row count, descriptors and per-column counts, or the same
    exception. *)
Theorem report_twice_same cursor tn w :
  fst (report cursor tn (snd (report cursor tn w)))
  = fst (report cursor tn w).
Proof.
  pose proof (quiet_same_frame _ w (quiet_report cursor tn)) as Hf.
  by destruct (quiet_report cursor tn _ _ (same_frame_sym _ _ Hf)) as (-> & _).
Qed.

(** ** C7: nothing written *)



(** ** C8: the cursor that is not passed in *)

(** C8.  [values_in_col] is handed cursor 1 (resp. 0), on an open
    connection that sees [my_table_3] with one entry, and what it returns
    follows the module-level [c]: the counts when [c] is that same cursor,
    [ProgrammingError] when [c] is the cursor of an earlier cell whose
    connection was closed, [NameError] when [c] is not bound, and the
    counts of another database when [c] is a cursor on another file. *)
Theorem values_in_col_follows_global_c :
  let file := lit "my_first_db.sqlite" in
  let tn := lit "my_table_3" in
  let t := my_table_3 [(lit "some_id1", march_6)] in
  let session := later_session file [t] march_10 in
  let other := two_files file [t] (lit "other.sqlite") [my_table_3 []] march_10 in
  fst (values_in_col 1 tn true (session (Some 1%nat))) = Ret (column_counts t)
  /\ fst (values_in_col 1 tn true (session (Some 0%nat)))
     = Raise ProgrammingError
  /\ fst (values_in_col 1 tn true (session None)) = Raise (NameError (lit "c"))
  /\ fst (values_in_col 0 tn true (other (Some 0%nat))) = Ret (column_counts t)
  /\ fst (values_in_col 0 tn true (other (Some 1%nat)))
     = Ret (column_counts (my_table_3 [])).
Proof.
  cbv zeta. split_and!; vm_compute; reflexivity.
Qed.

(** ** C9: the age filter *)

(** C9.  There is a state of [my_table_3] with an entry written more than
    1 day and 12 hours before now (on 2014-03-06 at 16:26:37, now being
    2014-03-10 08:00:00) on which the query of the notebook selects no
    row. *)
Theorem older_entries_misses_old_entry :
  exists (w : world) (written : timestamp),
    cursor_on w 0 0 [my_table_3 [(lit "some_id1", written)]]
    /\ older_than_1_day_12_hours (clock w) written = true
    /\ yields (older_entries 0 (lit "id") (lit "my_table_3") (lit "date")
                 (lit "time")) w [].
Proof.
  exists (opened (lit "my_first_db.sqlite")
                 [my_table_3 [(lit "some_id1", march_6)]] march_10), march_6.
  split_and!.
  - split; [reflexivity |]. eexists.
    split_and!;
      [reflexivity | reflexivity | vm_compute; reflexivity | reflexivity].
  - vm_compute; reflexivity.
  - vm_compute; reflexivity.
Qed.

(** ** C10: closing without committing *)

(** C10.  [close] on an open connection with pending changes returns,
    leaves every file as it was, and leaves the connection closed with
    nothing pending: the changes are gone.  Had the commented-out
    [conn.commit()] run first, the file would hold them. *)
Theorem close_discards_pending w conn cn d :
  conns w !! conn = Some cn -> conn_open cn = true ->
  conn_pending cn = Some d ->
  let w' := snd (close conn w) in
  fst (close conn w) = Ret tt
  /\ files w' = files w
  /\ conns w' !! conn = Some (Connection (conn_file cn) None false)
  /\ files (snd ((conn_commit conn ;; close conn)%py w)) !! conn_file cn
     = Some d.
Proof.
  intros Hc Ho Hp. cbv zeta. unfold close, conn_close, bind, conn_commit.
  rewrite Hc, Ho, Hp. cbn [fst snd files conns with_conns with_files].
  assert (Hlt : (conn < length (conns w))%nat) by by eapply lookup_lt_Some.
  split_and!; try done.
  - by apply list_lookup_insert_eq.
  - rewrite list_lookup_insert_eq by done. cbn [snd files with_conns with_files].
    apply lookup_insert_eq.
Qed.

(** Step A of the insert cell leaves its row pending; [close] then drops
    it, and a new connection to the file counts no row. *)
Lemma close_discards_pending_witness :
  let file := lit "my_first_db.sqlite" in
  let tn := lit "my_table_2" in
  let w0 := opened file [my_table_2 []] march_6 in
  let w := snd (insert_step_A 0 tn (lit "my_1st_column")
                  (lit "my_2nd_column") w0) in
  let w' := snd (close 0 w) in
  yields (total_rows 0 tn false) w (VInt 1)
  /\ files w' = files w0
  /\ fst ((p <- connect file ;; total_rows (snd p) tn false)%py w')
     = Ret (VInt 0).
Proof.
  cbv zeta. split; [vm_compute; reflexivity |].
  split; [| vm_compute; reflexivity].
  refine (proj1 (proj2
            (close_discards_pending _ 0%nat
               (Connection (lit "my_first_db.sqlite")
                  (Some [my_table_2 [[VInt 123456; VText (lit "test");
                                      VText (lit "Hello World")]]]) true)
               _ _ _ _))).
  - vm_compute; reflexivity.
  - reflexivity.
  - reflexivity.
Defined.

(** * Further properties of the notebook's code *)

(** ** [clean_name] *)

(** X1.  Sanitising twice is sanitising once, and sanitising a
    concatenation is concatenating the sanitised parts (so a name built
    from sanitised pieces needs no second pass). *)
Theorem clean_name_idempotent_and_additive (ua : pychar -> bool)
    (a b : pystr) :
  clean_name ua (clean_name ua a) = clean_name ua a
  /\ clean_name ua (a ++ b) = clean_name ua a ++ clean_name ua b.
Proof.
  unfold clean_name. split.
  - apply filter_all_fixed, Forall_forall. intros ch Hin.
    apply list_elem_of_In, filter_In in Hin. tauto.
  - apply List.filter_app.
Qed.

(** X2.  [clean_name] never makes a name longer, and it returns the empty
    string exactly when no character of the input is alphanumeric: a
    non-empty input can come back as the empty name. *)
Theorem clean_name_empty_iff (ua : pychar -> bool) (s : pystr) :
  (length (clean_name ua s) <= length s)%nat
  /\ (clean_name ua s = [] <-> Forall (fun ch => isalnum ua ch = false) s).
Proof.
  unfold clean_name. split; [apply List.filter_length_le |].
  induction s as [| ch s IH]; cbn [List.filter]; [by split |].
  destruct (isalnum ua ch) eqn:E.
  - split; [discriminate |]. intros H. apply Forall_cons in H as [H _]. congruence.
  - rewrite IH. split; [by constructor | by intros [_ ?]%Forall_cons].
Qed.

Section Sanitised.
Import Sql.
Variable ua : pychar -> bool.

(** Every alphanumeric character is a character of words. *)
Lemma alnum_word_char ch : isalnum ua ch = true -> word_char ch = true.
Proof.
  unfold isalnum, word_char, ident_char. intros Ha.
  destruct (N.ltb_spec ch 128) as [Hlt | Hge].
  - apply orb_true_iff in Ha as [-> | ->]; [by rewrite orb_true_r | done].
  - apply orb_true_iff. right. by apply N.leb_le.
Qed.

Lemma sanitised_word_chars s : forallb word_char (clean_name ua s) = true.
Proof.
  apply forallb_forall. intros ch Hin. unfold clean_name in Hin.
  apply filter_In in Hin as [_ Hin]. by apply alnum_word_char.
Qed.

Lemma classify_word_cases w :
  classify (RWord w) = None
  \/ (exists n, classify (RWord w) = Some (TNum n))
  \/ (exists k, classify (RWord w) = Some (TKw k))
  \/ classify (RWord w) = Some (TId w).
Proof.
  unfold classify. repeat case_match; eauto.
Qed.

Lemma count_tokens_parse t :
  parse_tokens [TKw K_SELECT; TId (lit "COUNT"); TSym LPAREN; TSym STAR;
                TSym RPAREN; TKw K_FROM; t]
  = match t with
    | TId tn => Some (Query (SelectCount tn))
    | _ => None
    end.
Proof. by destruct t. Qed.

(** The text of [total_rows] for a name made of word characters: the six
    tokens of the template, and the name as one word. *)
Lemma lex_total_rows_word w :
  forallb word_char w = true ->
  lex (total_rows_sql w)
  = Some ([RWord (lit "SELECT"); RWord (lit "COUNT"); RSym LPAREN; RSym STAR;
           RSym RPAREN; RWord (lit "FROM")]
          ++ match w with [] => [] | _ => [RWord w] end).
Proof.
  intros Hw. unfold lex, total_rows_sql. lex_piece.
  destruct w as [| ch w']; [by vm_compute |].
  by rewrite (lex_name_end _ _ Hw).
Qed.

Lemma parse_total_rows_word w :
  forallb word_char w = true ->
  parse_sql (total_rows_sql w) = None
  \/ parse_sql (total_rows_sql w) = Some (Query (SelectCount w)).
Proof.
  intros Hw. unfold parse_sql, tokenize.
  rewrite (lex_total_rows_word _ Hw). destruct w as [| ch w'].
  - left. by vm_compute.
  - cbn [app mbind option_bind].
    repeat (erewrite mapM_classify_cons
              by (lazymatch goal with
                  | |- context [ch] => fail
                  | |- _ => vm_compute; reflexivity
                  end)).
    cbn [mapM]. set (word := ch :: w').
    destruct (classify_word_cases word) as [H | [[n H] | [[k H] | H]]];
      rewrite H; cbn [mbind option_bind mret option_ret fmap option_fmap
                      option_map];
      rewrite ?count_tokens_parse; auto.
Qed.

End Sanitised.

(** X3.  A table name that went through [clean_name] cannot change the
    statement [total_rows] sends.  Whatever the input was, the text is read
    as the six tokens of the template followed by the sanitised name as one
    word (by nothing, when that name is empty): no character of the input
    ends the name or opens a clause of its own.  So the engine reads the
    text as the row count of the table with exactly the sanitised name, or
    refuses it; it reads it so whenever the sanitised name is an
    identifier that is not a keyword.  Without [clean_name] the same input
    can bring words of its own: [my_table_3 WHERE 1=0] brings a
    condition. *)
Theorem clean_name_keeps_statement_shape (ua : pychar -> bool) (s : pystr) :
  let name := clean_name ua s in
  Sql.lex (total_rows_sql name)
  = Some ([Sql.RWord (lit "SELECT"); Sql.RWord (lit "COUNT");
           Sql.RSym Sql.LPAREN; Sql.RSym Sql.STAR; Sql.RSym Sql.RPAREN;
           Sql.RWord (lit "FROM")]
          ++ match name with [] => [] | _ => [Sql.RWord name] end)
  /\ (forall st, parse_sql (total_rows_sql name) = Some st ->
                 st = Query (SelectCount name))
  /\ (plain_word name = true ->
      parse_sql (total_rows_sql name) = Some (Query (SelectCount name)))
  /\ Sql.lex (total_rows_sql (lit "my_table_3 WHERE 1=0"))
     = Some [Sql.RWord (lit "SELECT"); Sql.RWord (lit "COUNT");
             Sql.RSym Sql.LPAREN; Sql.RSym Sql.STAR; Sql.RSym Sql.RPAREN;
             Sql.RWord (lit "FROM"); Sql.RWord (lit "my_table_3");
             Sql.RWord (lit "WHERE"); Sql.RWord (lit "1");
             Sql.RSym Sql.EQUALS; Sql.RWord (lit "0")].
Proof.
  cbv zeta. pose proof (sanitised_word_chars ua s) as Hw.
  split_and!.
  - by apply lex_total_rows_word.
  - intros st Hst.
    destruct (parse_total_rows_word _ Hw) as [H | H]; rewrite H in Hst;
      by simplify_eq.
  - apply parse_total_rows_sql.
  - vm_compute; reflexivity.
Qed.


(** ** [print_out] *)

Lemma silent_ret {A} (a : A) : silent (ret a).
Proof. by intros w. Qed.

Lemma silent_raise {A} e : silent (@raise A e).
Proof. by intros w. Qed.

Lemma silent_index {A} (xs : list A) i : silent (index xs i).
Proof. unfold index. destruct (xs !! i); [apply silent_ret | apply silent_raise]. Qed.

Lemma silent_read_global_c : silent read_global_c.
Proof. intros w. unfold read_global_c. by destruct (global_c w). Qed.

Lemma silent_bind {A B} (m : py A) (k : A -> py B) :
  silent m -> (forall a, silent (k a)) -> silent (bind m k).
Proof.
  intros Hm Hk w. unfold bind. specialize (Hm w).
  destruct (m w) as [[a | e |] w']; cbn [snd] in *; try done.
  by rewrite Hk.
Qed.

Lemma silent_for_each {A S} (xs : list A) (body : A -> S -> py S) :
  (forall x s, silent (body x s)) -> forall acc, silent (for_each xs body acc).
Proof.
  intros Hb. induction xs as [| x xs IH]; intros acc; cbn [for_each].
  - apply silent_ret.
  - apply silent_bind; [apply Hb | exact IH].
Qed.

Lemma silent_ext {A} (m m' : py A) :
  (forall w, m w = m' w) -> silent m -> silent m'.
Proof. intros He Hm w. rewrite <- He. apply Hm. Qed.

Lemma silent_query c sql : read_text sql = true -> silent (query c sql).
Proof. intros Hr w. by destruct (query_run c sql w Hr) as (_ & _ & _ & ?). Qed.

Lemma silent_query_bind {B} c sql (k : list row -> py B) :
  read_text sql = true -> (forall rs, silent (k rs)) ->
  silent (execute c sql [] ;; rs <- fetchall c ;; k rs).
Proof.
  intros Hr Hk. eapply silent_ext; [intros w; symmetry; apply bind_query |].
  apply silent_bind; [by apply silent_query | exact Hk].
Qed.

Ltac silent_step :=
  first
    [ apply silent_ret
    | apply silent_index
    | apply silent_read_global_c
    | apply silent_query_bind;
      [ first [ apply read_text_total_rows | apply read_text_table_info
              | apply read_text_not_null ]
      | intros ]
    | apply silent_for_each; intros
    | apply silent_bind; [| intros] ].

Lemma bind_fst_ext {A B} (m : py A) (k1 k2 : A -> py B) w :
  (forall a w', fst (k1 a w') = fst (k2 a w')) ->
  fst (bind m k1 w) = fst (bind m k2 w).
Proof. intros H. unfold bind. destruct (m w) as [[a | e |] w']; auto. Qed.

Lemma bind_unit_then_ret {B} (p : py unit) (b : B) w :
  fst (p w) = Ret tt -> fst ((p ;; ret b)%py w) = Ret b.
Proof. unfold bind. destruct (p w) as [o w']. cbn. by intros ->. Qed.

(** X4.  [print_out] decides nothing but the printing: each of the three
    summary functions comes to the same value or the same exception with
    [print_out=True] and with [print_out=False], and with
    [print_out=False] nothing is printed. *)
Theorem print_out_only_prints cursor tn w :
  (fst (total_rows cursor tn true w) = fst (total_rows cursor tn false w)
   /\ fst (table_col_info cursor tn true w)
      = fst (table_col_info cursor tn false w)
   /\ fst (values_in_col cursor tn true w)
      = fst (values_in_col cursor tn false w))
  /\ (stdout (snd (total_rows cursor tn false w)) = stdout w
      /\ stdout (snd (table_col_info cursor tn false w)) = stdout w
      /\ stdout (snd (values_in_col cursor tn false w)) = stdout w).
Proof.
  split; split_and!.
  - unfold total_rows. apply bind_fst_ext. intros _ w1.
    apply bind_fst_ext. intros count w2. unfold bind, index, print, ret, raise.
    destruct (count !! 0%nat) as [r |]; [| done]. by destruct (r !! 0%nat).
  - unfold table_col_info. apply bind_fst_ext. intros _ w1.
    apply bind_fst_ext. intros info w2.
    rewrite !bind_unit_then_ret; [done | done |].
    apply (yields_bind (print _) _ w2 tt tt); [done |].
    apply for_each_print_yields.
  - unfold values_in_col. apply bind_fst_ext. intros _ w1.
    apply bind_fst_ext. intros info w2. apply bind_fst_ext. intros d0 w3.
    apply bind_fst_ext. intros d1 w4.
    rewrite !bind_unit_then_ret; [done | done |].
    apply (yields_bind (print _) _ w4 tt tt); [done |].
    apply for_each_print_yields.
  - revert w. change (silent (total_rows cursor tn false)).
    unfold total_rows. repeat silent_step.
  - revert w. change (silent (table_col_info cursor tn false)).
    unfold table_col_info. repeat silent_step.
  - revert w. change (silent (values_in_col cursor tn false)).
    unfold values_in_col. repeat silent_step.
Qed.

(** ** A table that is not there, seen by the other two functions *)




(** ** Counts and the row count *)

Lemma numbered_length cols : forall i, length (numbered i cols) = length cols.
Proof.
  induction cols as [| c cols IH]; intros i; [done |].
  cbn [numbered length]. by rewrite IH.
Qed.

(** X6.  In what the reporting calls return, there is one count per
    descriptor, and no count exceeds the row count [total_rows]
    returned. *)
Theorem counts_within_total_rows w cursor conn d tn t :
  ready w cursor conn d -> plain_table_name tn = true ->
  find_table d tn = Some t -> wf_table t = true ->
  exists (n : nat) (info : list row) (counts : pydict),
    yields (report cursor tn) w (VInt (Z.of_nat n), info, counts)
    /\ length counts = length info
    /\ Forall (fun kv => exists m : nat,
                 snd kv = VInt (Z.of_nat m) /\ (m <= n)%nat) counts.
Proof.
  intros Hr Hp Ht Hwf.
  exists (length (tbl_rows t)), (table_info t), (column_counts t).
  split; [by eapply report_yields |]. split.
  - unfold column_counts, table_info.
    by rewrite length_map, numbered_length, length_imap.
  - unfold column_counts. apply Forall_forall. intros kv Hin.
    apply list_elem_of_In, in_map_iff in Hin as ([i c] & <- & _).
    exists (non_null_count t i). split; [done |].
    apply List.filter_length_le.
Qed.

Lemma counts_within_total_rows_witness :
  let t := my_table_3 [(lit "some_id1", march_6)] in
  let w := opened (lit "my_first_db.sqlite") [t] march_10 in
  exists (n : nat) (info : list row) (counts : pydict),
    yields (report 0 (lit "my_table_3")) w (VInt (Z.of_nat n), info, counts)
    /\ length counts = length info
    /\ Forall (fun kv => exists m : nat,
                 snd kv = VInt (Z.of_nat m) /\ (m <= n)%nat) counts.
Proof.
  cbv zeta.
  refine (counts_within_total_rows _ 0%nat 0%nat
            [my_table_3 [(lit "some_id1", march_6)]] _
            (my_table_3 [(lit "some_id1", march_6)]) _ _ _ _).
  - split; [split; [reflexivity |] | reflexivity].
    eexists. split_and!;
      [reflexivity | reflexivity | vm_compute; reflexivity | reflexivity].
  - vm_compute; reflexivity.
  - vm_compute; reflexivity.
  - vm_compute; reflexivity.
Defined.

(** ** After [close] *)

Lemma execute_closed w c k cn sql params :
  cursor_conn w c = Some k -> conns w !! k = Some cn ->
  conn_open cn = false ->
  fst (execute c sql params w) = Raise ProgrammingError.
Proof.
  intros Hc Hk Ho. unfold execute, cursor_conn in *.
  cbn [cursors conns with_issued].
  destruct (cursors w !! c) as [co |]; [| done]. cbn in Hc. simplify_eq.
  by rewrite Hk, Ho.
Qed.

Lemma bind_raises {A B} (m : py A) (k : A -> py B) w e :
  fst (m w) = Raise e -> fst (bind m k w) = Raise e.
Proof. unfold bind. destruct (m w) as [o w']. cbn. by intros ->. Qed.

Lemma close_closes w conn cn c :
  conns w !! conn = Some cn ->
  let w' := snd (close conn w) in
  cursor_conn w' c = cursor_conn w c
  /\ conns w' !! conn = Some (Connection (conn_file cn) None false).
Proof.
  intros Hk. cbv zeta. unfold close, conn_close. rewrite Hk. cbn [snd].
  split; [done |]. cbn [conns with_conns].
  apply list_lookup_insert_eq. by eapply lookup_lt_Some.
Qed.

(** X7.  Once [close(conn)] has run, each of the three summary functions
    called with a cursor of that connection raises [ProgrammingError], for
    every table name and either value of [print_out]: the first
    [cursor.execute] refuses a closed database. *)
Theorem summary_functions_after_close w conn cn cursor tn b :
  cursor_conn w cursor = Some conn -> conns w !! conn = Some cn ->
  let w' := snd (close conn w) in
  fst (total_rows cursor tn b w') = Raise ProgrammingError
  /\ fst (table_col_info cursor tn b w') = Raise ProgrammingError
  /\ fst (values_in_col cursor tn b w') = Raise ProgrammingError.
Proof.
  intros Hc Hk w'. destruct (close_closes w conn cn cursor Hk) as [Hc' Hk'].
  fold w' in Hc', Hk'. rewrite Hc in Hc'.
  split_and!; apply bind_raises; by eapply execute_closed.
Qed.

Lemma summary_functions_after_close_witness :
  let w := opened (lit "my_first_db.sqlite")
                  [my_table_3 [(lit "some_id1", march_6)]] march_10 in
  let w' := snd (close 0 w) in
  fst (total_rows 0 (lit "my_table_3") true w') = Raise ProgrammingError
  /\ fst (table_col_info 0 (lit "my_table_3") true w') = Raise ProgrammingError
  /\ fst (values_in_col 0 (lit "my_table_3") true w') = Raise ProgrammingError.
Proof.
  cbv zeta.
  refine (summary_functions_after_close _ 0%nat
            (Connection (lit "my_first_db.sqlite") None true) 0%nat _ true _ _);
    reflexivity.
Defined.

(** ** A new connection *)

Lemma sqlite3_connect_run (file : pystr) w (d : database) :
  special_path file = false -> files w !! file = Some d ->
  sqlite3_connect file w
  = (Ret (length (conns w)),
     with_conns (conns w ++ [Connection file None true]) w).
Proof. intros H E. unfold sqlite3_connect. by rewrite H, E. Qed.

Lemma connect_run (file : pystr) w (d : database) :
  special_path file = false -> files w !! file = Some d ->
  connect file w
  = (Ret (length (conns w), length (cursors w)),
     with_cursors (cursors w ++ [Cursor (length (conns w)) []])
       (with_conns (conns w ++ [Connection file None true]) w)).
Proof.
  intros H E. unfold connect, bind. by rewrite (sqlite3_connect_run _ _ _ H E).
Qed.

(** A path that holds a table names a file. *)
Lemma stored_present w (file : pystr) tn t :
  find_table (stored w file) tn = Some t ->
  exists d : database, files w !! file = Some d.
Proof.
  unfold stored. destruct (files w !! file) as [d |]; [by exists d | done].
Qed.

Lemma connect_cursor_on (file : pystr) w (d : database) :
  special_path file = false -> files w !! file = Some d ->
  busy w file = false ->
  cursor_on (snd (connect file w)) (length (cursors w)) (length (conns w))
            (stored w file).
Proof.
  intros Hs E Hb. rewrite (connect_run _ _ _ Hs E). cbn [snd]. split.
  - unfold cursor_conn. cbn [cursors with_cursors].
    by rewrite list_lookup_middle.
  - exists (Connection file None true).
    cbn [conns with_cursors with_conns]. split_and!; try done.
    + by rewrite list_lookup_middle.
    + unfold contended. cbn [conns with_cursors with_conns conn_file].
      by rewrite (delete_middle (conns w) []), app_nil_r.
Qed.

Lemma connect_keeps_cursors file w c k d :
  cursor_on w c k d -> cursor_on (snd (connect file w)) c k d.
Proof.
  intros Hon. destruct (special_path file) eqn:Hs.
  { unfold connect, bind, sqlite3_connect. by rewrite Hs. }
  destruct (files w !! file) as [d0 |] eqn:Ef.
  2:{ unfold connect, bind, sqlite3_connect. by rewrite Hs, Ef. }
  destruct Hon as (Hc & cn & Hk & Ho & Hv & Hfree).
  rewrite (connect_run _ _ _ Hs Ef). cbn [snd]. split.
  - unfold cursor_conn in *. cbn [cursors with_cursors].
    destruct (cursors w !! c) as [co |] eqn:E; [| done].
    by rewrite (lookup_app_l_Some _ _ _ _ E).
  - exists cn. cbn [conns with_cursors with_conns]. split_and!; try done.
    + by rewrite (lookup_app_l_Some _ _ _ _ Hk).
    + unfold contended at 1. cbn [conns with_cursors with_conns].
      rewrite contended_new; [done | by eapply lookup_lt_Some | done].
Qed.

(** X8.  While no connection holds a transaction on a file, [connect]
    opens a connection that sees what the file holds: [total_rows] through
    the cursor [connect] returns counts the rows of the stored table.
    [connect] changes no file, and leaves every cursor that was usable as
    usable as it was, on the same database. *)
Theorem connect_sees_stored_file w file tn t :
  special_path file = false -> busy w file = false ->
  plain_table_name tn = true -> find_table (stored w file) tn = Some t ->
  yields (p <- connect file ;; total_rows (snd p) tn false) w
         (VInt (Z.of_nat (length (tbl_rows t))))
  /\ files (snd (connect file w)) = files w
  /\ (forall c k d, cursor_on w c k d -> cursor_on (snd (connect file w)) c k d).
Proof.
  intros Hs Hb Hp Ht. destruct (stored_present _ _ _ _ Ht) as [d0 E].
  split_and!.
  - eapply yields_bind; [unfold yields; by rewrite (connect_run _ _ _ Hs E) |].
    eapply total_rows_yields; [| done | done].
    rewrite (connect_run _ _ _ Hs E). cbn [snd fst].
    pose proof (connect_cursor_on file w d0 Hs E Hb) as Hon.
    by rewrite (connect_run _ _ _ Hs E) in Hon.
  - by rewrite (connect_run _ _ _ Hs E).
  - intros c k d. apply connect_keeps_cursors.
Qed.

(** A second connection to the notebook's file, which holds [my_table_2]
    with one row, while the first has nothing pending. *)
Lemma connect_sees_stored_file_witness :
  let file := lit "my_first_db.sqlite" in
  let tn := lit "my_table_2" in
  let row := [VInt 123456; VText (lit "test"); VText (lit "Hello World")] in
  let w := opened file [my_table_2 [row]] march_6 in
  yields (p <- connect file ;; total_rows (snd p) tn false) w (VInt 1)
  /\ files (snd (connect file w)) = files w.
Proof.
  cbv zeta.
  refine ((fun H => conj (proj1 H) (proj1 (proj2 H)))
            (connect_sees_stored_file _ (lit "my_first_db.sqlite")
               (lit "my_table_2")
               (my_table_2 [[VInt 123456; VText (lit "test");
                             VText (lit "Hello World")]]) _ _ _ _));
    vm_compute; reflexivity.
Defined.

(** ** What is printed *)

Lemma silent_execute c sql params : silent (execute c sql params).
Proof.
  intros w. unfold execute. cbn [cursors conns with_issued].
  repeat case_match; cbn [snd]; try done;
    rewrite ?set_rows_stdout; unfold set_pending;
    repeat case_match; cbn [stdout with_conns]; rewrite ?set_rows_stdout;
    try done; by repeat case_match.
Qed.

Lemma silent_fetchall c : silent (fetchall c).
Proof.
  intros w. unfold fetchall. repeat case_match; cbn [snd]; try done.
  by rewrite set_rows_stdout.
Qed.

Lemma bind_prints {A B} (m : py A) (k : A -> py B) w b out :
  silent m ->
  (forall a w', yields (k a) w' b -> stdout (snd (k a w')) = stdout w' ++ out) ->
  yields (bind m k) w b -> stdout (snd (bind m k w)) = stdout w ++ out.
Proof.
  intros Hm Hk. unfold yields, bind. specialize (Hm w).
  destruct (m w) as [[a | e |] w']; cbn [fst snd] in *; try done.
  intros Hy. by rewrite (Hk a w' Hy), Hm.
Qed.

Lemma for_each_print_stdout {A} (xs : list A) (f : A -> printed) : forall w,
  stdout (snd (for_each xs (fun x _ => print (f x)) tt w))
  = stdout w ++ List.map f xs.
Proof.
  induction xs as [| x xs IH]; intros w; cbn [for_each List.map].
  - by rewrite app_nil_r.
  - unfold bind, print at 1. rewrite IH. cbn [stdout with_stdout].
    by rewrite <- app_assoc.
Qed.

Lemma total_rows_prints c tn w v :
  yields (total_rows c tn true) w v ->
  stdout (snd (total_rows c tn true w))
  = stdout w ++ [PStr (newline ++ lit "Total rows: " ++ str v)].
Proof.
  unfold total_rows. apply bind_prints; [apply silent_execute |].
  intros _ w1. apply bind_prints; [apply silent_fetchall |].
  intros count w2. unfold yields, bind, index, print, ret, raise.
  destruct (count !! 0%nat) as [r |]; [| done].
  destruct (r !! 0%nat) as [v' |]; [| done]. cbn. by intros [= ->].
Qed.

Lemma table_col_info_prints c tn w info :
  yields (table_col_info c tn true) w info ->
  stdout (snd (table_col_info c tn true w))
  = stdout w
    ++ [PStr (newline ++ lit "Column Info:" ++ newline
              ++ lit "ID, Name, Type, NotNull, DefaultVal, PrimaryKey")]
    ++ List.map PObj info.
Proof.
  unfold table_col_info. apply bind_prints; [apply silent_execute |].
  intros _ w1. apply bind_prints; [apply silent_fetchall |].
  intros info' w2 Hy.
  assert (info' = info) as ->.
  { unfold yields in Hy. rewrite bind_unit_then_ret in Hy; [by simplify_eq |].
    apply (yields_bind (print _) _ w2 tt tt); [done |].
    apply for_each_print_yields. }
  unfold bind at 1 2. unfold print at 1.
  pose proof (for_each_print_yields info PObj
                (with_stdout (stdout w2 ++ [PStr (newline ++ lit "Column Info:" ++ newline
              ++ lit "ID, Name, Type, NotNull, DefaultVal, PrimaryKey")]) w2)) as Ht.
  pose proof (for_each_print_stdout info PObj
                (with_stdout (stdout w2 ++ [PStr (newline ++ lit "Column Info:" ++ newline
              ++ lit "ID, Name, Type, NotNull, DefaultVal, PrimaryKey")]) w2)) as Hs.
  unfold yields in Ht.
  destruct (for_each info _ tt _) as [o w3]. cbn [fst snd] in *. subst o.
  cbn [snd ret]. rewrite Hs. cbn [stdout with_stdout]. by rewrite <- app_assoc.
Qed.

Lemma values_in_col_prints c tn w counts :
  yields (values_in_col c tn true) w counts ->
  stdout (snd (values_in_col c tn true w))
  = stdout w
    ++ [PStr (newline ++ lit "Number of entries per column:")]
    ++ List.map (fun i => PStr (str (fst i) ++ lit ": " ++ str (snd i))) counts.
Proof.
  unfold values_in_col. apply bind_prints; [apply silent_execute |].
  intros _ w1. apply bind_prints; [apply silent_fetchall |].
  intros info w2. apply bind_prints; [repeat silent_step |].
  intros d0 w3. apply bind_prints; [repeat silent_step |].
  intros d1 w4 Hy.
  set (line := fun i : value * value => PStr (str (fst i) ++ lit ": " ++ str (snd i))).
  assert (d1 = counts) as ->.
  { unfold yields in Hy. rewrite bind_unit_then_ret in Hy; [by simplify_eq |].
    apply (yields_bind (print _) _ w4 tt tt); [done |].
    apply (for_each_print_yields d1 line). }
  unfold bind at 1 2. unfold print at 1.
  pose proof (for_each_print_yields counts line
                (with_stdout (stdout w4 ++ [PStr (newline ++ lit "Number of entries per column:")]) w4)) as Ht.
  pose proof (for_each_print_stdout counts line
                (with_stdout (stdout w4 ++ [PStr (newline ++ lit "Number of entries per column:")]) w4)) as Hs.
  unfold yields in Ht.
  destruct (for_each counts _ tt _) as [o w5]. cbn [fst snd] in *. subst o.
  cbn [snd ret]. rewrite Hs. cbn [stdout with_stdout]. by rewrite <- app_assoc.
Qed.

Lemma report_prints c tn w n info counts :
  yields (report c tn) w (n, info, counts) ->
  stdout (snd (report c tn w)) = stdout w ++ report_output n info counts.
Proof.
  unfold report, yields, bind.
  destruct (total_rows c tn true w) as [[n' | |] w1] eqn:E1; try done.
  destruct (table_col_info c tn true w1) as [[info' | |] w2] eqn:E2; try done.
  destruct (values_in_col c tn true w2) as [[counts' | |] w3] eqn:E3; try done.
  cbn. intros [= -> -> ->].
  pose proof (total_rows_prints c tn w n) as H1.
  pose proof (table_col_info_prints c tn w1 info) as H2.
  pose proof (values_in_col_prints c tn w2 counts) as H3.
  unfold yields in *. rewrite E1 in H1. rewrite E2 in H2. rewrite E3 in H3.
  cbn [fst snd] in *. rewrite H3, H2, H1 by done.
  unfold report_output. by rewrite <- !app_assoc.
Qed.

(** X9.  Whenever the reporting calls of [__main__] return, what they
    have printed is the rendering of what they return: the row count, the
    header and one line per descriptor, the header and one [name: count]
    line per entry of the dictionary, in this order and nothing else. *)
Theorem report_prints_what_it_returns c tn w n info counts :
  yields (report c tn) w (n, info, counts) ->
  stdout (snd (report c tn w)) = stdout w ++ report_output n info counts.
Proof. apply report_prints. Qed.

(** The output the notebook records for its run on [my_table_3]. *)
Lemma report_prints_what_it_returns_witness :
  let t := my_table_3 [(lit "some_id1", march_6)] in
  let w := opened (lit "my_first_db.sqlite") [t] march_10 in
  stdout (snd (report 0 (lit "my_table_3") w))
  = [ PStr (newline ++ lit "Total rows: 1");
      PStr (newline ++ lit "Column Info:" ++ newline
            ++ lit "ID, Name, Type, NotNull, DefaultVal, PrimaryKey");
      PObj [VInt 0; VText (lit "id"); VText (lit "TEXT"); VInt 0; VNull; VInt 1];
      PObj [VInt 1; VText (lit "date"); VText []; VInt 0; VNull; VInt 0];
      PObj [VInt 2; VText (lit "time"); VText []; VInt 0; VNull; VInt 0];
      PObj [VInt 3; VText (lit "date_time"); VText []; VInt 0; VNull; VInt 0];
      PStr (newline ++ lit "Number of entries per column:");
      PStr (lit "id: 1"); PStr (lit "date: 1"); PStr (lit "time: 1");
      PStr (lit "date_time: 1") ].
Proof.
  cbv zeta.
  refine (eq_trans
            (report_prints_what_it_returns 0%nat (lit "my_table_3") _
               (VInt 1)
               (table_info (my_table_3 [(lit "some_id1", march_6)]))
               (column_counts (my_table_3 [(lit "some_id1", march_6)])) _) _);
    vm_compute; reflexivity.
Defined.

(** ** The [__main__] block *)





(** ** The cell "Retrieving column names" *)





(** ** [values_in_col] and the module-level [c] *)

Lemma dict_set_nonempty k v (d : pydict) : dict_set k v d <> [].
Proof. destruct d as [| [k' v'] d]; cbn; [done |]. by case_bool_decide. Qed.

Lemma fold_dict_set_nonempty {P} (key : P -> value) (v : value) (l : list P) :
  forall d : pydict, l <> [] \/ d <> [] ->
  fold_left (fun d p => dict_set (key p) v d) l d <> [].
Proof.
  induction l as [| p l IH]; intros d H; cbn [fold_left].
  - by destruct H.
  - apply IH. right. apply dict_set_nonempty.
Qed.

Lemma values_in_col_first_turn w cursor conn d tn t b e :
  cursor_on w cursor conn d -> plain_table_name tn = true ->
  find_table d tn = Some t -> tbl_cols t <> [] ->
  (forall w1 col dct, same_frame w w1 ->
     fst ((c <- read_global_c ;;
           execute c (not_null_sql col tn) [] ;;
           rows <- fetchall c ;;
           ret (dict_set col (VInt (Z.of_nat (length rows))) dct))%py w1)
     = Raise e) ->
  fst (values_in_col cursor tn b w) = Raise e.
Proof.
  intros Hon Hp Ht Hne Hbody. unfold values_in_col. rewrite bind_query.
  pose proof (query_table_info _ _ _ _ _ _ Hon Hp Ht) as Hq.
  pose proof (quiet_same_frame _ w (quiet_query cursor _ (read_text_table_info tn)))
    as Hf.
  unfold yields in Hq. unfold bind at 1.
  destruct (query cursor (table_info_sql tn) w) as [o w1].
  cbn [fst snd] in *. subst o. rewrite table_info_numbered.
  match goal with
  | |- fst (bind (for_each _ ?body ?acc0) _ _) = _ =>
      destruct (for_each_fold
                  (fun p : nat * column => descriptor (fst p) (snd p))
                  (numbered 0 (tbl_cols t)) body
                  (fun dct p => dict_set (VText (col_name (snd p))) (VInt 0) dct)
                  (fun w' => w' = w1)) with (s := acc0) (w := w1)
        as [Hy1 Hw1]
  end.
  { intros y dct w' _ ->. by split. }
  { done. }
  unfold yields in Hy1. unfold bind at 1.
  match type of Hy1 with
  | fst ?run = _ => destruct run as [o w1']
  end.
  cbn [fst snd] in *. subst o w1'.
  pose proof (fold_dict_set_nonempty
                (fun p : nat * column => VText (col_name (snd p))) (VInt 0)
                (numbered 0 (tbl_cols t)) []) as Hd0.
  cbv beta in Hd0.
  match type of Hd0 with
  | _ -> ?F <> [] => destruct F as [| [k0 v0] d0]
  end.
  { exfalso. apply Hd0; [| done]. left. destruct (tbl_cols t); [done | discriminate]. }
  cbn [dict_keys List.map fst for_each].
  apply bind_raises, bind_raises. by apply Hbody.
Qed.

(** X12.  On a table with at least one column, [values_in_col] cannot do
    without the module-level [c], whatever cursor it is handed: it raises
    [NameError] when [c] is not bound, and [ProgrammingError] when [c] is a
    cursor whose connection is closed. *)
Theorem values_in_col_needs_usable_c w cursor conn d tn t b :
  cursor_on w cursor conn d -> plain_table_name tn = true ->
  find_table d tn = Some t -> tbl_cols t <> [] ->
  (global_c w = None ->
   fst (values_in_col cursor tn b w) = Raise (NameError (lit "c")))
  /\ (forall c k cn,
        global_c w = Some c -> cursor_conn w c = Some k ->
        conns w !! k = Some cn -> conn_open cn = false ->
        fst (values_in_col cursor tn b w) = Raise ProgrammingError).
Proof.
  intros Hon Hp Ht Hne. split.
  - intros Hg. eapply values_in_col_first_turn; try done.
    intros w1 col dct (_ & _ & _ & Hg1 & _). apply bind_raises.
    unfold read_global_c. by rewrite <- Hg1, Hg.
  - intros c k cn Hg Hc Hk Ho. eapply values_in_col_first_turn; try done.
    intros w1 col dct Hf. pose proof Hf as (_ & Hconns & _ & Hg1 & _).
    unfold bind at 1. unfold read_global_c. rewrite <- Hg1, Hg.
    apply bind_raises. eapply execute_closed; [| | exact Ho].
    + by rewrite <- (same_frame_cursor_conn _ _ c Hf).
    + by rewrite <- Hconns.
Qed.

(** After the [__main__] block has run, [c] is the cursor of its closed
    connection: [values_in_col] on a fresh cursor then fails. *)
Lemma values_in_col_needs_usable_c_witness :
  let file := lit "my_first_db.sqlite" in
  let tn := lit "my_table_3" in
  let t := my_table_3 [(lit "some_id1", march_6)] in
  let w0 := World {[ file := [t] ]} [] [] None [] march_10 [] in
  let w := snd ((main ;; connect file)%py w0) in
  yields (total_rows 1 tn false) w (VInt 1)
  /\ fst (values_in_col 1 tn true w) = Raise ProgrammingError.
Proof.
  cbv zeta. split; [vm_compute; reflexivity |].
  refine (proj2 (values_in_col_needs_usable_c _ 1%nat 1%nat
                   [my_table_3 [(lit "some_id1", march_6)]] (lit "my_table_3")
                   (my_table_3 [(lit "some_id1", march_6)]) true _ _ _ _)
            0%nat 0%nat (Connection (lit "my_first_db.sqlite") None false)
            _ _ _ _).
  - split; [vm_compute; reflexivity |].
    exists (Connection (lit "my_first_db.sqlite") None true).
    split_and!; vm_compute; reflexivity.
  - vm_compute; reflexivity.
  - vm_compute; reflexivity.
  - discriminate.
  - vm_compute; reflexivity.
  - vm_compute; reflexivity.
  - vm_compute; reflexivity.
  - reflexivity.
Defined.

(** ** The two INSERT steps *)

Lemma set_pending_lookup w k cn d :
  conns w !! k = Some cn ->
  conns (set_pending k d w) !! k
  = Some (Connection (conn_file cn) (Some d) (conn_open cn)).
Proof.
  intros Hk. unfold set_pending. rewrite Hk. cbn.
  apply list_lookup_insert_eq. by eapply lookup_lt_Some.
Qed.

Lemma set_pending_rest w k d :
  cursors (set_pending k d w) = cursors w
  /\ files (set_pending k d w) = files w
  /\ stdout (set_pending k d w) = stdout w
  /\ global_c (set_pending k d w) = global_c w.
Proof. unfold set_pending. by destruct (conns w !! k). Qed.

(** A write that the engine carries out: [execute] returns, and the
    connection sees the new database, pending. *)
Lemma execute_changed w c k d sql st d' :
  cursor_on w c k d -> parse_sql sql = Some st -> writes st = true ->
  run (sql_date (clock w)) d st = Changed d' ->
  fst (execute c sql [] w) = Ret tt
  /\ cursor_on (snd (execute c sql [] w)) c k d'
  /\ files (snd (execute c sql [] w)) = files w
  /\ stdout (snd (execute c sql [] w)) = stdout w
  /\ global_c (snd (execute c sql [] w)) = global_c w.
Proof.
  intros (Hc & cn & Hk & Ho & Hv & Hfree) Hp Hw Hrun. subst d. unfold execute.
  set (w' := with_issued (issued w ++ [sql]) w).
  change (cursors w') with (cursors w). change (conns w') with (conns w).
  change (clock w') with (clock w).
  unfold cursor_conn in Hc.
  destruct (cursors w !! c) as [co |] eqn:Ec; [| done].
  cbn in Hc. simplify_eq. rewrite Hk, Ho, Hp. cbv zeta. rewrite Hw. cbn [negb].
  change (view w' cn) with (view w cn).
  change (answer w' (cur_conn co) cn st []) with (answer w (cur_conn co) cn st []).
  rewrite (answer_free _ _ _ _ Hfree), Hrun. cbn [fst snd].
  set (w1 := set_pending (cur_conn co) (view w cn) w').
  assert (Hk1 : conns (set_rows c [] w1) !! cur_conn co
                = Some (Connection (conn_file cn) (Some (view w cn)) (conn_open cn))).
  { rewrite set_rows_conns. by apply set_pending_lookup. }
  destruct (set_pending_rest w' (cur_conn co) (view w cn))
    as (Hcur1 & Hfiles1 & Hout1 & Hg1).
  fold w1 in Hcur1, Hfiles1, Hout1, Hg1.
  destruct (set_pending_rest (set_rows c [] w1) (cur_conn co) d')
    as (Hcur2 & Hfiles2 & Hout2 & Hg2).
  destruct (same_frame_set_rows w1 c []) as (Hf3 & _ & Hc3 & Hg3 & _).
  split; [done |]. split; [| split_and!].
  - split.
    + unfold cursor_conn. rewrite Hcur2, <- list_lookup_fmap, <- Hc3,
        list_lookup_fmap, Hcur1. change (cursors w') with (cursors w).
      by rewrite Ec.
    + eexists. rewrite (set_pending_lookup _ _ _ d' Hk1). cbn.
      split_and!; [done | done | done |].
      rewrite contended_set_pending, contended_set_rows. unfold w1.
      by rewrite contended_set_pending.
  - by rewrite Hfiles2, <- Hf3, Hfiles1.
  - by rewrite Hout2, set_rows_stdout, Hout1.
  - by rewrite Hg2, <- Hg3, Hg1.
Qed.

Lemma same_name_refl a : same_name a a = true.
Proof. unfold same_name, pystr_eqb. by apply bool_decide_eq_true. Qed.

Lemma find_table_name d tn t :
  find_table d tn = Some t -> same_name (tbl_name t) tn = true.
Proof. intros H. by apply List.find_some in H as [_ ?]. Qed.

Lemma find_table_replace d tn t t' :
  find_table d tn = Some t -> tbl_name t' = tbl_name t ->
  find_table (replace_table d t') tn = Some t'.
Proof.
  intros Hfind Hname. pose proof (find_table_name _ _ _ Hfind) as Hm.
  unfold find_table, replace_table in *.
  induction d as [| t0 d IH]; [done |]. cbn [List.find List.map] in *.
  destruct (same_name (tbl_name t0) tn) eqn:E0.
  - simplify_eq. rewrite Hname, same_name_refl. cbn [List.find].
    by rewrite Hname, Hm.
  - destruct (same_name (tbl_name t0) (tbl_name t')) eqn:E1; cbn [List.find].
    + by rewrite Hname, Hm.
    + rewrite E0. by apply IH.
Qed.

Lemma names_checked t idf cn i j :
  find_col (tbl_cols t) idf = Some i -> find_col (tbl_cols t) cn = Some j ->
  same_name idf cn = false ->
  missing_col (tbl_cols t) [idf; cn] = None /\ distinct_names [idf; cn] = true.
Proof.
  intros Hfi Hfj Hne. split.
  - unfold missing_col. cbn [List.find]. rewrite Hfi, Hfj.
    by rewrite !bool_decide_eq_false_2.
  - unfold distinct_names. apply bool_decide_eq_true. cbn [List.map].
    unfold same_name, pystr_eqb in Hne. apply bool_decide_eq_false in Hne.
    apply NoDup_cons. split; [| apply NoDup_singleton].
    apply not_elem_of_cons. split; [done | apply not_elem_of_nil].
Qed.

Lemma pk_conflict_single t i r' key :
  pk_positions (tbl_cols t) = [i] -> r' !! i = Some key ->
  pk_conflict t r' = true <-> exists r, r ∈ tbl_rows t /\ r !! i = Some key.
Proof.
  intros Hpk Hkey. unfold pk_conflict, key_of. rewrite Hpk. cbn [List.map].
  rewrite existsb_exists. split.
  - intros (r & Hin & Heq). exists r. split; [by apply list_elem_of_In |].
    apply bool_decide_eq_true in Heq. congruence.
  - intros (r & Hin & Heq). exists r. split; [by apply list_elem_of_In |].
    apply bool_decide_eq_true. congruence.
Qed.

(** The engine's verdict on the notebook's row, by whether its key is in
    the table. *)
Lemma run_insert_cases today d tn t cols vals i r' key or_ignore :
  internal_name tn = false -> find_table d tn = Some t ->
  tbl_ordinary t = true ->
  missing_col (tbl_cols t) cols = None -> distinct_names cols = true ->
  pk_positions (tbl_cols t) = [i] ->
  new_row t cols vals = Some r' ->
  r' !! i = Some key -> key <> VNull ->
  notnull_violation t r' = false ->
  run today d (Insert or_ignore tn cols vals)
  = if pk_conflict t r' then
      if or_ignore then Changed d else Failed IntegrityError
    else Changed (replace_table d (Table (tbl_name t) (tbl_cols t)
                                         (tbl_rows t ++ [r']) true)).
Proof.
  intros Hint Ht Hord Hmiss Hdist Hpk Hnew Hkey Hnn Hnv.
  cbn [run]. rewrite Hint, Ht. unfold run_insert.
  rewrite Hmiss, Hord, Hdist, Hnew. cbn [negb orb].
  unfold key_of at 1. rewrite Hpk. cbn [List.map existsb]. rewrite Hkey.
  rewrite bool_decide_eq_false_2 by congruence. cbn [orb].
  by rewrite Hnv.
Qed.

(** X13.  On an ordinary table (a primary key with the default conflict
    handling; no index, trigger or further constraint) whose primary key
    [idf] does not yet hold the key of the notebook's row, and while no
    other connection holds a transaction on the file, step A inserts the
    row without printing: the connection then counts one row more, while
    the file is unchanged (the row is pending until a commit).  Step B
    after it returns without an exception and adds nothing: the two steps
    together insert the row once. *)
Theorem insert_new_key_once w c conn d tn idf cn t i j r' key :
  cursor_on w c conn d ->
  plain_table_name tn = true -> plain_word idf = true ->
  plain_word cn = true ->
  find_table d tn = Some t -> tbl_ordinary t = true ->
  find_col (tbl_cols t) idf = Some i -> find_col (tbl_cols t) cn = Some j ->
  same_name idf cn = false ->
  pk_positions (tbl_cols t) = [i] ->
  new_row t [idf; cn] [VInt 123456; VText (lit "test")] = Some r' ->
  r' !! i = Some key -> key <> VNull ->
  notnull_violation t r' = false ->
  (forall r, r ∈ tbl_rows t -> r !! i <> Some key) ->
  let wA := snd (insert_step_A c tn idf cn w) in
  let wB := snd (insert_step_B c tn idf cn wA) in
  fst (insert_step_A c tn idf cn w) = Ret tt
  /\ stdout wA = stdout w /\ files wA = files w
  /\ yields (total_rows c tn false) wA (VInt (Z.of_nat (S (length (tbl_rows t)))))
  /\ fst (insert_step_B c tn idf cn wA) = Ret tt
  /\ stdout wB = stdout w /\ files wB = files w
  /\ yields (total_rows c tn false) wB (VInt (Z.of_nat (S (length (tbl_rows t))))).
Proof.
  intros Hon Hp Hi Hc Ht Hord Hfi Hfj Hne Hpk Hnew Hkey Hnn Hnv Hfresh wA wB.
  destruct (names_checked _ _ _ _ _ Hfi Hfj Hne) as [Hmiss Hdist].
  pose proof (plain_table_not_internal _ Hp) as Hint.
  set (t' := Table (tbl_name t) (tbl_cols t) (tbl_rows t ++ [r']) true).
  set (d' := replace_table d t').
  assert (Hno : pk_conflict t r' = false).
  { apply not_true_is_false. intros Hyes.
    apply (pk_conflict_single _ _ _ _ Hpk Hkey) in Hyes as (r & Hin & Hr).
    by apply (Hfresh r). }
  assert (HrunA : run (sql_date (clock w)) d
                      (Insert false tn [idf; cn]
                              [VInt 123456; VText (lit "test")])
                  = Changed d').
  { rewrite (run_insert_cases _ _ _ _ _ _ _ _ _ _ Hint Ht Hord Hmiss Hdist
               Hpk Hnew Hkey Hnn Hnv). by rewrite Hno. }
  destruct (execute_changed w c conn d (fst (insert_statement tn idf cn)) _ _ Hon
              (parse_insert_statement _ _ _ (plain_table_word _ Hp) Hi Hc)
              eq_refl HrunA) as (HeA & HonA & HfA & HoA & _).
  assert (HstepA : insert_step_A c tn idf cn w
                   = execute c (fst (insert_statement tn idf cn)) [] w).
  { unfold insert_step_A, try_except. cbn [insert_statement fst] in *.
    destruct (execute c _ [] w) as [o w1]. cbn [fst] in HeA. by subst o. }
  assert (Ht' : find_table d' tn = Some t')
    by by apply (find_table_replace d tn t t').
  assert (HonA' : cursor_on wA c conn d') by (unfold wA; by rewrite HstepA).
  assert (Hyes : pk_conflict t' r' = true).
  { apply (pk_conflict_single t' i r' key Hpk Hkey). exists r'.
    split; [| done]. cbn [tbl_rows t']. apply elem_of_app. right.
    apply list_elem_of_here. }
  assert (HrunB : forall today,
             run today d' (Insert true tn [idf; cn]
                                  [VInt 123456; VText (lit "test")])
             = Changed d').
  { intros today.
    rewrite (run_insert_cases today d' tn t' _ _ i r' key true Hint Ht'
               eq_refl Hmiss Hdist Hpk Hnew Hkey Hnn).
    - by rewrite Hyes.
    - unfold notnull_violation in *. cbn [tbl_cols t']. exact Hnv. }
  destruct (execute_changed wA c conn d'
              (fst (insert_or_ignore_statement tn idf cn)) _ _ HonA'
              (parse_insert_or_ignore_statement _ _ _ (plain_table_word _ Hp)
                 Hi Hc)
              eq_refl (HrunB _)) as (HeB & HonB & HfB & HoB & _).
  assert (HstepB : insert_step_B c tn idf cn wA
                   = execute c (fst (insert_or_ignore_statement tn idf cn)) [] wA)
    by done.
  unfold wB. rewrite HstepB. unfold wA in *. rewrite HstepA in *.
  split_and!; try done; try congruence.
  - pose proof (total_rows_yields _ _ _ _ _ _ false HonA' Hp Ht') as Hy.
    cbn [tbl_rows t'] in Hy. by rewrite length_app, Nat.add_1_r in Hy.
  - pose proof (total_rows_yields _ _ _ _ _ _ false HonB Hp Ht') as Hy.
    cbn [tbl_rows t'] in Hy. by rewrite length_app, Nat.add_1_r in Hy.
Qed.

Lemma insert_new_key_once_witness :
  let tn := lit "my_table_2" in
  let idf := lit "my_1st_column" in
  let cn := lit "my_2nd_column" in
  let w := opened (lit "my_first_db.sqlite") [my_table_2 []] march_6 in
  let wA := snd (insert_step_A 0 tn idf cn w) in
  let wB := snd (insert_step_B 0 tn idf cn wA) in
  yields (total_rows 0 tn false) w (VInt 0)
  /\ yields (total_rows 0 tn false) wA (VInt 1)
  /\ yields (total_rows 0 tn false) wB (VInt 1)
  /\ files wB = files w.
Proof.
  cbv zeta. split; [vm_compute; reflexivity |].
  refine ((fun H => conj (proj1 (proj2 (proj2 (proj2 H))))
             (conj (proj2 (proj2 (proj2 (proj2 (proj2 (proj2 (proj2 H)))))))
                   (proj1 (proj2 (proj2 (proj2 (proj2 (proj2 (proj2 H)))))))))
            (insert_new_key_once
               (opened (lit "my_first_db.sqlite") [my_table_2 []] march_6)
               0%nat 0%nat [my_table_2 []]
               (lit "my_table_2") (lit "my_1st_column") (lit "my_2nd_column")
               (my_table_2 []) 0%nat 1%nat
               [VInt 123456; VText (lit "test"); VText (lit "Hello World")]
               (VInt 123456) _ _ _ _ _ _ _ _ _ _ _ _ _ _ _)).
  - split; [reflexivity |]. eexists.
    split_and!;
      [reflexivity | reflexivity | vm_compute; reflexivity | reflexivity].
  - vm_compute; reflexivity.
  - vm_compute; reflexivity.
  - vm_compute; reflexivity.
  - vm_compute; reflexivity.
  - reflexivity.
  - vm_compute; reflexivity.
  - vm_compute; reflexivity.
  - vm_compute; reflexivity.
  - vm_compute; reflexivity.
  - vm_compute; reflexivity.
  - reflexivity.
  - discriminate.
  - vm_compute; reflexivity.
  - intros r Hr. by apply elem_of_nil in Hr.
Defined.



(** ** The age filter on any table of entries *)

Lemma is_digit_digit n : is_digit (digit n) = true.
Proof.
  unfold is_digit, digit. pose proof (N.mod_lt n 10 ltac:(done)) as H.
  revert H. generalize (n mod 10). intros m H.
  apply andb_true_iff. split; apply N.leb_le; lia.
Qed.

Lemma leading_digits_digit n rest acc :
  leading_digits (digit n :: rest) acc
  = leading_digits rest (acc * 10 + Z.of_N (n mod 10))%Z.
Proof.
  change (leading_digits (digit n :: rest) acc)
    with (if is_digit (digit n)
          then leading_digits rest (acc * 10 + (Z.of_N (digit n) - 48))%Z
          else (acc, digit n :: rest)).
  rewrite is_digit_digit. f_equal. unfold digit. lia.
Qed.

Lemma numeric_prefix_digit ch s :
  is_digit ch = true ->
  numeric_prefix (ch :: s)
  = let '(n, s3) := leading_digits (ch :: s) 0%Z in
    match s3 with
    | 46 :: _ | 101 :: _ | 69 :: _ => None
    | _ => if in_exact_range n then Some (1 * n)%Z else None
    end.
Proof.
  unfold is_digit. intros H. apply andb_true_iff in H as [H1 H2].
  apply N.leb_le in H1, H2.
  assert (Hc : ch = 48 \/ ch = 49 \/ ch = 50 \/ ch = 51 \/ ch = 52 \/ ch = 53
               \/ ch = 54 \/ ch = 55 \/ ch = 56 \/ ch = 57) by lia.
  destruct Hc as [-> | [-> | [-> | [-> | [-> | [-> | [-> | [-> | [-> | ->]]]]]]]]];
    reflexivity.
Qed.

Lemma pad4_value y :
  y < 10000 ->
  (Z.of_N (y / 1000 mod 10) * 1000 + Z.of_N (y / 100 mod 10) * 100
   + Z.of_N (y / 10 mod 10) * 10 + Z.of_N (y mod 10) = Z.of_N y)%Z.
Proof.
  intros Hy.
  pose proof (N.div_mod y 10 ltac:(lia)) as H0.
  pose proof (N.div_mod (y / 10) 10 ltac:(lia)) as H1.
  pose proof (N.div_mod (y / 100) 10 ltac:(lia)) as H2.
  rewrite N.Div0.div_div in H1. change (10 * 10) with 100 in H1.
  rewrite N.Div0.div_div in H2. change (100 * 10) with 1000 in H2.
  assert (H3 : y / 1000 < 10) by (apply N.Div0.div_lt_upper_bound; lia).
  rewrite (N.mod_small (y / 1000) 10) by lia.
  lia.
Qed.

Lemma pad2_value h :
  h < 100 -> (Z.of_N (h / 10 mod 10) * 10 + Z.of_N (h mod 10) = Z.of_N h)%Z.
Proof.
  intros Hh. pose proof (N.div_mod h 10 ltac:(lia)) as H0.
  assert (H1 : h / 10 < 10) by (apply N.Div0.div_lt_upper_bound; lia).
  rewrite (N.mod_small (h / 10) 10) by lia. lia.
Qed.

Lemma small_in_exact_range z :
  (-10000 < z < 10000)%Z -> in_exact_range z = true.
Proof.
  intros H. unfold in_exact_range, exact_bound.
  apply andb_true_iff. split; apply Z.ltb_lt; lia.
Qed.

(** In arithmetic a date counts as its year. *)
Lemma numeric_prefix_date t :
  ts_year t < 10000 -> numeric_prefix (sql_date t) = Some (Z.of_N (ts_year t)).
Proof.
  intros Hy. unfold sql_date, pad4. cbn [app].
  rewrite numeric_prefix_digit by apply is_digit_digit.
  rewrite !leading_digits_digit.
  change (leading_digits (lit "-" ++ ?r) ?a) with (a, lit "-" ++ r).
  set (n := (_ + Z.of_N (ts_year t mod 10))%Z).
  assert (Hn : n = Z.of_N (ts_year t)).
  { subst n. pose proof (pad4_value _ Hy). lia. }
  rewrite Hn. cbn [app lit]. rewrite small_in_exact_range by lia.
  f_equal. lia.
Qed.

(** In arithmetic a time counts as its hour. *)
Lemma numeric_prefix_time t :
  ts_hour t < 100 -> numeric_prefix (sql_time t) = Some (Z.of_N (ts_hour t)).
Proof.
  intros Hh. unfold sql_time, pad2. cbn [app].
  rewrite numeric_prefix_digit by apply is_digit_digit.
  rewrite !leading_digits_digit.
  change (leading_digits (lit ":" ++ ?r) ?a) with (a, lit ":" ++ r).
  set (n := (_ + Z.of_N (ts_hour t mod 10))%Z).
  assert (Hn : n = Z.of_N (ts_hour t)).
  { subst n. pose proof (pad2_value _ Hh). lia. }
  rewrite Hn. cbn [app lit]. rewrite small_in_exact_range by lia.
  f_equal. lia.
Qed.

Lemma parse_older_entries_sql :
  parse_sql (older_entries_sql (lit "id") (lit "my_table_3") (lit "date")
               (lit "time"))
  = Some (Query (Select (ECol (lit "id")) (lit "my_table_3")
                   (EAnd (EGe (ESub EDateNow (ECol (lit "date"))) (EInt 1))
                         (EGe (ESub EDateNow (ECol (lit "time")))
                              (EInt 12))))).
Proof. vm_compute; reflexivity. Qed.

Lemma renderable_parts t :
  renderable t = true -> ts_year t < 10000 /\ ts_hour t < 100.
Proof.
  unfold renderable. intros H. apply andb_true_iff in H as [H1 H2].
  by apply N.ltb_lt in H1, H2.
Qed.

Lemma age_difference today s a b :
  numeric_prefix today = Some (Z.of_N a) -> numeric_prefix s = Some (Z.of_N b) ->
  a < 10000 -> b < 10000 ->
  sql_sub (VText today) (VText s) = Some (VInt (Z.of_N a - Z.of_N b)).
Proof.
  intros Ha Hb La Lb. unfold sql_sub, to_number. rewrite Ha, Hb.
  cbn [fmap option_fmap option_map mbind option_bind].
  by rewrite small_in_exact_range by lia.
Qed.

Lemma age_filter_passes now e :
  renderable now = true -> renderable (snd e) = true ->
  passes (sql_date now) (tbl_cols (my_table_3 [])) (entry_row e)
    (EAnd (EGe (ESub EDateNow (ECol (lit "date"))) (EInt 1))
          (EGe (ESub EDateNow (ECol (lit "time"))) (EInt 12)))
  = Some (age_filter_selects now e)
  /\ eval (sql_date now) (tbl_cols (my_table_3 [])) (entry_row e)
       (ECol (lit "id")) = Some (VText (fst e)).
Proof.
  destruct e as [id t]. cbn [snd fst]. intros Hn Ht.
  apply renderable_parts in Hn as [Hny _].
  apply renderable_parts in Ht as [Hty Hth].
  assert (Hi : find_col (tbl_cols (my_table_3 [])) (lit "id") = Some 0%nat)
    by (vm_compute; reflexivity).
  assert (Hd : find_col (tbl_cols (my_table_3 [])) (lit "date") = Some 1%nat)
    by (vm_compute; reflexivity).
  assert (Hc : find_col (tbl_cols (my_table_3 [])) (lit "time") = Some 2%nat)
    by (vm_compute; reflexivity).
  split; [| by cbn [eval]; rewrite Hi].
  unfold passes. cbn [eval]. rewrite Hd, Hc.
  cbn [mbind option_bind].
  change (entry_row (id, t) !! 1%nat) with (Some (VText (sql_date t))).
  change (entry_row (id, t) !! 2%nat) with (Some (VText (sql_time t))).
  cbn [mbind option_bind].
  rewrite (age_difference _ _ _ _ (numeric_prefix_date now Hny)
             (numeric_prefix_date t Hty) Hny Hty).
  rewrite (age_difference _ _ _ _ (numeric_prefix_date now Hny)
             (numeric_prefix_time t Hth) Hny ltac:(lia)).
  cbn [mbind option_bind sql_ge as_int].
  unfold age_filter_selects. cbn [snd].
  destruct (Z.leb_spec 1 (Z.of_N (ts_year now) - Z.of_N (ts_year t)));
    destruct (Z.leb_spec 12 (Z.of_N (ts_year now) - Z.of_N (ts_hour t)));
    destruct (N.leb_spec (ts_year t + 1) (ts_year now));
    destruct (N.leb_spec (ts_hour t + 12) (ts_year now));
    try lia; reflexivity.
Qed.

Lemma select_by_age now entries :
  renderable now = true ->
  forallb (fun e => renderable (snd e)) entries = true ->
  select_rows (sql_date now) (my_table_3 entries) (ECol (lit "id"))
    (EAnd (EGe (ESub EDateNow (ECol (lit "date"))) (EInt 1))
          (EGe (ESub EDateNow (ECol (lit "time"))) (EInt 12)))
  = Some (List.map (fun e => [VText (fst e)])
            (List.filter (age_filter_selects now) entries)).
Proof.
  intros Hn He. unfold select_rows.
  change (tbl_cols (my_table_3 entries)) with (tbl_cols (my_table_3 [])).
  change (tbl_rows (my_table_3 entries)) with (List.map entry_row entries).
  set (f := fun r : row => _).
  assert (Hf : forall e, renderable (snd e) = true ->
            f (entry_row e) = Some (if age_filter_selects now e
                                    then [[VText (fst e)]] else [])).
  { intros e Hr. unfold f.
    destruct (age_filter_passes now e Hn Hr) as [-> ->].
    cbn [mbind option_bind]. by destruct (age_filter_selects now e). }
  clearbody f.
  induction entries as [| e entries IH]; [done |].
  cbn [forallb] in He. apply andb_true_iff in He as [Hr He].
  specialize (IH He).
  destruct (mapM f (List.map entry_row entries)) as [rss |] eqn:E; [| done].
  cbn in IH. simplify_eq.
  cbn [List.map mapM List.filter]. rewrite (Hf e Hr), E.
  cbn [mbind option_bind mret option_ret fmap option_fmap option_map].
  f_equal. cbn [List.concat]. rewrite IH.
  by destruct (age_filter_selects now e).
Qed.

(** X15.  What the age query of the notebook selects, on any table of
    entries written as the notebook writes them: the ids of exactly those
    entries whose year is at least one less than this year and whose hour
    is at least 12 less than this year, in the table's order.  Month, day,
    minute and second of an entry, and everything of now but the year, have
    no part in it. *)
Theorem older_entries_selects_by_year w c conn d entries :
  cursor_on w c conn d ->
  find_table d (lit "my_table_3") = Some (my_table_3 entries) ->
  renderable (clock w) = true ->
  forallb (fun e => renderable (snd e)) entries = true ->
  yields (older_entries c (lit "id") (lit "my_table_3") (lit "date")
            (lit "time")) w
         (List.map (fun e => [VText (fst e)])
            (List.filter (age_filter_selects (clock w)) entries)).
Proof.
  intros Hon Ht Hn He. unfold yields.
  change (older_entries c (lit "id") (lit "my_table_3") (lit "date")
            (lit "time"))
    with (query c (older_entries_sql (lit "id") (lit "my_table_3")
                     (lit "date") (lit "time"))).
  destruct (query_run c (older_entries_sql (lit "id") (lit "my_table_3")
                           (lit "date") (lit "time")) w eq_refl) as (-> & _).
  rewrite (query_outcome_on _ _ _ _ _ _ Hon parse_older_entries_sql).
  cbn [run run_query].
  change (internal_name (lit "my_table_3")) with false. cbv iota.
  rewrite Ht.
  change (missing_col _ _) with (@None pystr). cbv iota.
  by rewrite (select_by_age _ _ Hn He).
Qed.

Lemma older_entries_selects_by_year_witness :
  let entries :=
    [ (lit "some_id1", march_6);
      (lit "some_id2", Timestamp 2013 12 31 23 59 59) ] in
  let w := opened (lit "my_first_db.sqlite") [my_table_3 entries] march_10 in
  older_than_1_day_12_hours (clock w) march_6 = true
  /\ yields (older_entries 0 (lit "id") (lit "my_table_3") (lit "date")
               (lit "time")) w
       (List.map (fun e => [VText (fst e)])
          (List.filter (age_filter_selects (clock w)) entries))
  /\ List.filter (age_filter_selects (clock w)) entries
     = [(lit "some_id2", Timestamp 2013 12 31 23 59 59)].
Proof.
  cbv zeta. split_and!; [vm_compute; reflexivity | | vm_compute; reflexivity].
  apply (older_entries_selects_by_year _ 0%nat 0%nat
           [my_table_3 [ (lit "some_id1", march_6);
                         (lit "some_id2", Timestamp 2013 12 31 23 59 59) ]]).
  - split; [reflexivity |]. eexists.
    split_and!;
      [reflexivity | reflexivity | vm_compute; reflexivity | reflexivity].
  - vm_compute; reflexivity.
  - vm_compute; reflexivity.
  - vm_compute; reflexivity.
Defined.
